(** * ServerForm: the multi-protocol server editor of ppanel-web

    A shallow embedding of the [ServerForm] React component (the server-node
    editor) and of the part of the JavaScript semantics its code relies on:
    the coercions [Number(...)], truthiness, [||], strict equality with a
    string, object spread, [Array.prototype.filter/map/find/includes].

    The component state ([useState] cells, the react-hook-form object) is
    threaded explicitly through every event handler. *)

From Stdlib Require Import QArith.
From stdpp Require Import gmap strings list fin_maps.

Local Open Scope list_scope.

(** ** JavaScript numbers

    The component never does arithmetic on a number: it only tests
    [Number.isFinite], compares with the literals [0] and [65535], tests
    truthiness and passes numbers on.  A finite number is therefore modelled by
    its exact rational value; every IEEE double is such a value, and the
    comparisons of two finite doubles are the comparisons of their values. *)

Inductive number : Type :=
  | NaN
  | PosInf
  | NegInf
  | Fin (q : Q).

Definition Qlt_bool (a b : Q) : bool := negb (Qle_bool b a).

(** [Number.isFinite(n)] *)
Definition isFinite (n : number) : bool :=
  match n with
  | Fin _ => true
  | _ => false
  end.

(** [x < y]; any comparison with [NaN] is false. *)
Definition num_lt (x y : number) : bool :=
  match x, y with
  | NaN, _ | _, NaN => false
  | _, NegInf => false
  | NegInf, _ => true
  | PosInf, _ => false
  | Fin _, PosInf => true
  | Fin a, Fin b => Qlt_bool a b
  end.

(** [x <= y]; any comparison with [NaN] is false. *)
Definition num_le (x y : number) : bool :=
  match x, y with
  | NaN, _ | _, NaN => false
  | NegInf, _ => true
  | _, PosInf => true
  | _, NegInf => false
  | PosInf, Fin _ => false
  | Fin a, Fin b => Qle_bool a b
  end.

(** [x > y] is [y < x]. *)
Definition num_gt (x y : number) : bool := num_lt y x.

(** A number with no fractional part (used only by the specification-side
    predicate below; the component has no such test). *)
Definition isInteger (n : number) : bool :=
  match n with
  | Fin q => Pos.eqb (Qden (Qred q)) 1
  | _ => false
  end.

(** ** JavaScript primitive values and flat objects *)

Inductive jsval : Type :=
  | JUndefined
  | JNull
  | JBool (b : bool)
  | JNum (n : number)
  | JStr (s : string).

#[global] Instance Q_eq_dec : EqDecision Q.
Proof. solve_decision. Defined.

#[global] Instance number_eq_dec : EqDecision number.
Proof. solve_decision. Defined.

#[global] Instance jsval_eq_dec : EqDecision jsval.
Proof. solve_decision. Defined.

(** A protocol config is a flat object: property name to primitive value. *)
Abbreviation obj := (gmap string jsval).

(** Property read [o.k]: a missing property reads as [undefined]. *)
Definition get (o : obj) (k : string) : jsval := default JUndefined (o !! k).

(** Truthiness (ToBoolean). *)
Definition ToBoolean (v : jsval) : bool :=
  match v with
  | JUndefined | JNull => false
  | JBool b => b
  | JNum NaN => false
  | JNum (Fin q) => negb (Qeq_bool q 0)
  | JNum _ => true
  | JStr s => negb (String.eqb s "")
  end.

(** [a || b] *)
Definition js_or (a b : jsval) : jsval := if ToBoolean a then a else b.

(** [v === s] for a string [s]. *)
Definition strict_eq_str (v : jsval) (s : string) : bool :=
  match v with
  | JStr s' => String.eqb s' s
  | _ => false
  end.

(** The language runtime's StringToNumber is not part of this repository; it is
    taken as a parameter.  The only fact used about it is that the empty string
    converts to [0]. *)
Class Runtime := {
  StringToNumber : string → number;
  StringToNumber_empty : StringToNumber "" = Fin 0;
}.

(** The names the component imports from [./form-schema], a module of this
    repository that is not among the sources: the catalog [PROTOCOLS] (imported
    as [protocols as PROTOCOLS]) and the default factory. *)
Class FormSchema := {
  PROTOCOLS : list string;
  getProtocolDefaultConfig : string → obj;
}.

Section Component.
Context `{Runtime} `{FormSchema}.

(** [Number(v)] (ToNumber) on primitives. *)
Definition Number (v : jsval) : number :=
  match v with
  | JUndefined => NaN
  | JNull => Fin 0
  | JBool true => Fin 1
  | JBool false => Fin 0
  | JNum n => n
  | JStr s => StringToNumber s
  end.

(** ** Form values

    [ServerFormValues]: the five scalar fields and the protocols array.  The
    value handed to [onSubmit] has the same shape. *)
Record ServerFormValues : Type := {
  name : jsval;
  address : jsval;
  country : jsval;
  city : jsval;
  ratio : jsval;
  protocols : list obj;
}.

(** [Partial<ServerFormValues>]: every field may be missing. *)
Record PartialServerFormValues : Type := {
  p_name : option jsval;
  p_address : option jsval;
  p_country : option jsval;
  p_city : option jsval;
  p_ratio : option jsval;
  p_protocols : option (list obj);
}.

(** The react-hook-form object: the current values and the values a bare
    [form.reset()] goes back to. *)
Record UseForm : Type := {
  values : ServerFormValues;
  defaultValues : ServerFormValues;
}.

(** [form.reset(v)] installs [v] as the values and as the new defaults;
    [form.reset()] goes back to the defaults. *)
Definition form_reset (v : option ServerFormValues) (f : UseForm) : UseForm :=
  match v with
  | Some v => {| values := v; defaultValues := v |}
  | None => {| values := defaultValues f; defaultValues := defaultValues f |}
  end.

(** What [await onSubmit(result)] yields: the promise resolves to a boolean, or
    it rejects. *)
Inductive outcome : Type :=
  | Resolved (ok : bool)
  | Rejected.

(** The component state: the form, the three [useState] cells, and two logs
    that record the observable effects (the keys passed to [toast.error(t(..))]
    and the arguments [onSubmit] was called with, oldest first). *)
Record ServerForm : Type := {
  form : UseForm;
  open : bool;
  activeType : string;
  protocolsEnabled : list string;
  toasts : list string;
  submitted : list ServerFormValues;
}.

Definition set_form (f : UseForm) (st : ServerForm) : ServerForm :=
  {| form := f; open := open st; activeType := activeType st;
     protocolsEnabled := protocolsEnabled st; toasts := toasts st;
     submitted := submitted st |}.

Definition setOpen (b : bool) (st : ServerForm) : ServerForm :=
  {| form := form st; open := b; activeType := activeType st;
     protocolsEnabled := protocolsEnabled st; toasts := toasts st;
     submitted := submitted st |}.

Definition setProtocolsEnabled (e : list string) (st : ServerForm) : ServerForm :=
  {| form := form st; open := open st; activeType := activeType st;
     protocolsEnabled := e; toasts := toasts st; submitted := submitted st |}.

Definition toast_error (key : string) (st : ServerForm) : ServerForm :=
  {| form := form st; open := open st; activeType := activeType st;
     protocolsEnabled := protocolsEnabled st; toasts := toasts st ++ [key];
     submitted := submitted st |}.

Definition record_onSubmit (r : ServerFormValues) (st : ServerForm) : ServerForm :=
  {| form := form st; open := open st; activeType := activeType st;
     protocolsEnabled := protocolsEnabled st; toasts := toasts st;
     submitted := submitted st ++ [r] |}.

(** The object literal [{name: '', address: '', country: '', city: '',
    ratio: 1, ...initialValues}] with its [protocols] property set to [ps]
    (each caller decides what [ps] is). *)
Definition with_blank_defaults (iv : option PartialServerFormValues)
    (ps : list obj) : ServerFormValues :=
  let field (f : PartialServerFormValues → option jsval) (d : jsval) :=
    default d (iv ≫= f) in
  {| name := field p_name (JStr "");
     address := field p_address (JStr "");
     country := field p_country (JStr "");
     city := field p_city (JStr "");
     ratio := field p_ratio (JNum (Fin 1));
     protocols := ps |}.

(** [useForm({defaultValues: {..., protocols: [], ...initialValues}})] and the
    initial [useState] cells. *)
Definition mount (initialValues : option PartialServerFormValues) : ServerForm :=
  let dv := with_blank_defaults initialValues
              (default [] (initialValues ≫= p_protocols)) in
  {| form := {| values := dv; defaultValues := dv |};
     open := false;
     activeType := "shadowsocks";
     protocolsEnabled := [];
     toasts := [];
     submitted := [] |}.

(** ** Loading an existing node: the [useEffect] on [initialValues] *)

(** [initialValues.protocols?.find((p) => p.type === type)] *)
Definition find_protocol (iv : PartialServerFormValues) (type : string) : option obj :=
  p_protocols iv ≫= List.find (λ p, strict_eq_str (get p "type") type).

(** The filter callback: [protocol && protocol.port && Number(protocol.port) > 0]
    (an object is truthy). *)
Definition enabled_on_load (iv : PartialServerFormValues) (type : string) : bool :=
  match find_protocol iv type with
  | Some protocol =>
      ToBoolean (get protocol "port")
      && num_gt (Number (get protocol "port")) (Fin 0)
  | None => false
  end.

(** [existingProtocol || getProtocolDefaultConfig(type)] *)
Definition slot_on_load (iv : PartialServerFormValues) (type : string) : obj :=
  match find_protocol iv type with
  | Some existingProtocol => existingProtocol
  | None => getProtocolDefaultConfig type
  end.

Definition useEffect_initialValues (initialValues : option PartialServerFormValues)
    (st : ServerForm) : ServerForm :=
  match initialValues with
  | Some iv =>
      let enabledProtocols := List.filter (enabled_on_load iv) PROTOCOLS in
      let st := setProtocolsEnabled enabledProtocols st in
      set_form
        (form_reset
           (Some (with_blank_defaults (Some iv) (List.map (slot_on_load iv) PROTOCOLS)))
           (form st))
        st
  | None => st
  end.

(** ** Creating a node: the trigger button's [onClick] *)
Definition trigger_onClick (initialValues : option PartialServerFormValues)
    (st : ServerForm) : ServerForm :=
  let st :=
    match initialValues with
    | None =>
        let full := List.map getProtocolDefaultConfig PROTOCOLS in
        let st := set_form (form_reset (Some (with_blank_defaults None full)) (form st)) st in
        setProtocolsEnabled [] st
    | Some _ => st
    end in
  setOpen true st.

(** ** The enable switch: [onCheckedChange] of the switch of kind [type] *)
Definition onCheckedChange (type : string) (checked : bool) (st : ServerForm) : ServerForm :=
  if checked
  then setProtocolsEnabled (protocolsEnabled st ++ [type]) st
  else setProtocolsEnabled
         (List.filter (λ p, negb (String.eqb p type)) (protocolsEnabled st)) st.

(** ** Submission: [handleSubmit] *)

(** [Array.prototype.filter] with the [(element, index)] callback. *)
Fixpoint filter_from {A : Type} (f : A → nat → bool) (i : nat) (l : list A) : list A :=
  match l with
  | [] => []
  | x :: l => if f x i then x :: filter_from f (S i) l else filter_from f (S i) l
  end.

Definition filteri {A : Type} (f : A → nat → bool) (l : list A) : list A :=
  filter_from f 0 l.

(** The filter callback of [handleSubmit].  [PROTOCOLS[index]] is [undefined]
    past the end of the catalog, and the empty string is falsy too. *)
Definition keep (enabled : list string) (p : obj) (index : nat) : bool :=
  let port := Number (get p "port") in
  match PROTOCOLS !! index with
  | Some protocolType =>
      negb (String.eqb protocolType "")
      && bool_decide (protocolType ∈ enabled)
      && isFinite port
      && num_gt port (Fin 0)
      && num_le port (Fin 65535)
  | None => false
  end.

(** The map callback: [{ ...p, port: Number(p.port) }]. *)
Definition normalize_port (p : obj) : obj :=
  <["port" := JNum (Number (get p "port"))]> p.

(** The list [filtered] of [handleSubmit]. *)
Definition filtered (enabled : list string) (v : ServerFormValues) : list obj :=
  List.map normalize_port (filteri (keep enabled) (protocols v)).

(** The object [result] of [handleSubmit]. *)
Definition result (enabled : list string) (v : ServerFormValues) : ServerFormValues :=
  {| name := name v;
     country := country v;
     city := city v;
     ratio := JNum (Number (js_or (ratio v) (JNum (Fin 1))));
     address := address v;
     protocols := filtered enabled v |}.

Definition handleSubmit (onSubmit : ServerFormValues → outcome)
    (v : ServerFormValues) (st : ServerForm) : ServerForm :=
  let filtered := filtered (protocolsEnabled st) v in
  if Nat.eqb (length filtered) 0 then toast_error "validation_failed" st
  else
    let result := result (protocolsEnabled st) v in
    let st := record_onSubmit result st in
    match onSubmit result with
    | Resolved true => setOpen false (set_form (form_reset None (form st)) st)
    | Resolved false => st
    | Rejected => st
    end.

End Component.

(** ** Concrete instances used by the examples *)

(** Modelled from the spec: the catalog [protocols] of [./form-schema], which is
    not among the sources.  The spec's data model and glossary list the seven
    kinds in this order. *)
Definition spec_PROTOCOLS : list string :=
  ["shadowsocks"; "vless"; "vmess"; "trojan"; "tuic"; "hysteria2"; "anytls"].

(** Modelled from the spec: the Protocol Default Factory [getProtocolDefaultConfig]
    of [./form-schema], which is not among the sources.  Only the defaults the
    spec documents are set: shadowsocks cipher, vless security [none], trojan
    security [tls], tuic congestion [bbr], fingerprint [chrome]. *)
Definition spec_getProtocolDefaultConfig (type : string) : obj :=
  let tagged : obj := {[ "type" := JStr type ]} in
  if String.eqb type "shadowsocks" then
    <["cipher" := JStr "chacha20-ietf-poly1305"]> tagged
  else if String.eqb type "vless" then
    <["flow" := JStr "none"]>
      (<["security" := JStr "none"]> (<["fingerprint" := JStr "chrome"]> tagged))
  else if String.eqb type "trojan" then
    <["security" := JStr "tls"]> (<["fingerprint" := JStr "chrome"]> tagged)
  else if String.eqb type "tuic" then
    <["congestion_controller" := JStr "bbr"]> tagged
  else if String.eqb type "vmess" then
    <["fingerprint" := JStr "chrome"]> tagged
  else if String.eqb type "anytls" then
    <["fingerprint" := JStr "chrome"]> tagged
  else tagged.

Definition spec_schema : FormSchema :=
  {| PROTOCOLS := spec_PROTOCOLS;
     getProtocolDefaultConfig := spec_getProtocolDefaultConfig |}.

(** A string parser for the examples: the value of a string of decimal digits,
    [0] for the empty string, [NaN] otherwise.  It agrees with the runtime on
    the empty string and on short digit strings; no example uses another
    string where a number is expected. *)
Fixpoint digits_value (acc : Z) (s : string) : option Z :=
  match s with
  | EmptyString => Some acc
  | String c s =>
      let n := Ascii.nat_of_ascii c in
      if (48 <=? n)%nat && (n <=? 57)%nat
      then digits_value (10 * acc + Z.of_nat (n - 48)) s
      else None
  end.

Definition digits_StringToNumber (s : string) : number :=
  match digits_value 0 s with
  | Some z => Fin (inject_Z z)
  | None => NaN
  end.

Definition digits_runtime : Runtime :=
  {| StringToNumber := digits_StringToNumber;
     StringToNumber_empty := eq_refl |}.

(** ** Port predicates *)

(** The range test the reducer applies to a coerced port:
    [Number.isFinite(port) && port > 0 && port <= 65535]. *)
Definition port_in_range (n : number) : bool :=
  isFinite n && num_gt n (Fin 0) && num_le n (Fin 65535).

(** The spec's words for a valid port: "parses to a finite integer in
    (0, 65535]". *)
Definition spec_port_valid (n : number) : bool :=
  isFinite n && isInteger n && num_gt n (Fin 0) && num_le n (Fin 65535).

Section KindKeyed.
Context `{Runtime} `{FormSchema}.

(** The part of the [handleSubmit] callback that looks at the catalog kind:
    the kind is truthy and in the enabled list. *)
Definition kind_enabled (enabled : list string) (k : string) : bool :=
  negb (String.eqb k "") && bool_decide (k ∈ enabled).

(** The spec's reading of the reducer, "for each protocol kind in catalog
    order, inspect whether it is in the enabled set and its port is in range;
    keep only those": every slot is paired with the catalog kind at the same
    position, and the pairs that pass are kept. *)
Definition kept_by_kind (enabled : list string) (v : ServerFormValues)
    : list (string * obj) :=
  List.filter
    (λ kp, kind_enabled enabled kp.1 && port_in_range (Number (get kp.2 "port")))
    (zip PROTOCOLS (protocols v)).

(** [values] with its protocols array replaced. *)
Definition set_protocols (ps : list obj) (v : ServerFormValues) : ServerFormValues :=
  {| name := name v; address := address v; country := country v;
     city := city v; ratio := ratio v; protocols := ps |}.

(** A loaded node that respects the data model: its configs carry pairwise
    different [type] properties. *)
Definition one_config_per_type (ps : list obj) : Prop :=
  NoDup ((λ p, get p "type") <$> ps).

(** The configs of the loaded node ([initialValues.protocols], none when the
    property is missing). *)
Definition loaded_protocols (iv : PartialServerFormValues) : list obj :=
  default [] (p_protocols iv).

(** A loaded node whose configs are all of kinds of the catalog. *)
Definition known_types (ps : list obj) : Prop :=
  ∀ p, p ∈ ps → ∃ k, k ∈ PROTOCOLS ∧ get p "type" = JStr k.

(** The reducer's port test applied to a config: its port coerces to a
    number in (0, 65535]. *)
Definition has_valid_port (p : obj) : bool :=
  port_in_range (Number (get p "port")).

End KindKeyed.

(** ** Data for the examples, on the catalog and default factory of the spec *)

Section ExampleData.
#[local] Existing Instance digits_runtime.
#[local] Existing Instance spec_schema.

Definition blank_values (ps : list obj) : ServerFormValues :=
  {| name := JStr "node"; address := JStr "example.org"; country := JStr "";
     city := JStr ""; ratio := JNum (Fin 1); protocols := ps |}.

Definition ss_slot : obj :=
  {[ "type" := JStr "shadowsocks"; "port" := JNum (Fin 8388);
     "cipher" := JStr "chacha20-ietf-poly1305" ]}.

(** A vless slot in transport mode [tcp] and security mode [none] that still
    carries a host, a path and reality keys typed in earlier. *)
Definition vless_stale_slot : obj :=
  {[ "type" := JStr "vless"; "port" := JNum (Fin 443);
     "transport" := JStr "tcp"; "host" := JStr "old.example.org";
     "path" := JStr "/ws"; "security" := JStr "none";
     "reality_public_key" := JStr "old-key" ]}.

(** The editor opened on a new node, then brought to the given edited values
    and enabled list. *)
Definition editing (enabled : list string) (v : ServerFormValues) : ServerForm :=
  let st := trigger_onClick None (mount None) in
  setProtocolsEnabled enabled
    (set_form {| values := v; defaultValues := defaultValues (form st) |} st).

(** A stored node with the given configs. *)
Definition stored_node (ps : list obj) : PartialServerFormValues :=
  {| p_name := Some (JStr "node"); p_address := Some (JStr "example.org");
     p_country := None; p_city := None; p_ratio := Some (JNum (Fin 2));
     p_protocols := Some ps |}.

(** The editor mounted on a stored node, after the load effect has run. *)
Definition loaded (ps : list obj) : ServerForm :=
  useEffect_initialValues (Some (stored_node ps)) (mount (Some (stored_node ps))).

Definition vless_443 : obj :=
  {[ "type" := JStr "vless"; "port" := JNum (Fin 443) ]}.

(** A stored shadowsocks config whose port is the string ["8388"]. *)
Definition ss_text_port : obj :=
  {[ "type" := JStr "shadowsocks"; "port" := JStr "8388" ]}.

Definition vless_70000 : obj :=
  {[ "type" := JStr "vless"; "port" := JNum (Fin 70000) ]}.

Definition trojan_70000 : obj :=
  {[ "type" := JStr "trojan"; "port" := JNum (Fin 70000) ]}.

End ExampleData.

(** ** The rest of the component: tab labels, the rendered fields, the field
    and button handlers *)

(** [String.prototype.toUpperCase] on one character.  Only ASCII is modelled
    (a byte below 128 is one UTF-16 code unit with the same code); for any
    other byte the result is [None]. *)
Definition toUpperCase_ascii (c : Ascii.ascii) : option Ascii.ascii :=
  let n := Ascii.nat_of_ascii c in
  if (n <? 128)%nat
  then Some (if (97 <=? n)%nat && (n <=? 122)%nat
             then Ascii.ascii_of_nat (n - 32) else c)
  else None.

(** [titleCase(s)]: [s.charAt(0).toUpperCase() + s.slice(1)]; on the empty
    string [charAt(0)] is the empty string. *)
Definition titleCase (s : string) : option string :=
  match s with
  | EmptyString => Some EmptyString
  | String c rest => (λ c', String c' rest) <$> toUpperCase_ascii c
  end.

(** [a ?? b] *)
Definition js_nullish (a b : jsval) : jsval :=
  match a with
  | JUndefined | JNull => b
  | _ => a
  end.

(** [l.includes(v)] for an array [l] of string literals. *)
Definition includes_str (l : list string) (v : jsval) : bool :=
  existsb (strict_eq_str v) l.

(** [(cipher || '').toString()], the source casting [cipher] to
    [string | undefined].  The text of a number is not modelled ([None]). *)
Definition cipher_text (cipher : jsval) : option string :=
  match js_or cipher (JStr "") with
  | JStr s => Some s
  | JBool true => Some "true"
  | _ => None
  end.

(** The test that shows the [server_key] field.  The text of a number is
    made of digits, signs, [.], [e], [Infinity] or [NaN], never one of the
    three cipher names. *)
Definition is_blake3_cipher (cipher : jsval) : bool :=
  match cipher_text cipher with
  | Some s =>
      existsb (String.eqb s)
        ["2022-blake3-aes-128-gcm"; "2022-blake3-aes-256-gcm";
         "2022-blake3-chacha20-poly1305"]
  | None => false
  end.

(** [cond && (<fields>)] in the JSX. *)
Definition when (cond : bool) (fields : list string) : list string :=
  if cond then fields else [].

(** The form fields ([protocols.${i}.<name>]) the tab of kind [type] renders,
    in document order, for the watched slot [current]. *)
Definition rendered_fields (type : string) (current : obj) (isEnabled : bool)
    : list string :=
  let transport := js_nullish (get current "transport") (JStr "tcp") in
  let security := get current "security" in
  let cipher := get current "cipher" in
  let type_in (l : list string) := existsb (λ t, String.eqb t type) l in
  when isEnabled
    (["port"]
     ++ when (String.eqb type "shadowsocks")
          (["cipher"] ++ when (is_blake3_cipher cipher) ["server_key"])
     ++ when (String.eqb type "vless") ["flow"]
     ++ when (String.eqb type "hysteria2")
          ["obfs_password"; "hop_ports"; "hop_interval"]
     ++ when (String.eqb type "tuic")
          ["udp_relay_mode"; "congestion_controller"; "disable_sni"; "reduce_rtt"]
     ++ when (type_in ["vmess"; "vless"; "trojan"])
          (["transport"]
           ++ when (negb (strict_eq_str transport "tcp"))
                (when (includes_str ["websocket"; "http2"; "httpupgrade"] transport)
                   ["host"; "path"]
                 ++ when (strict_eq_str transport "grpc") ["service_name"]))
     ++ when (type_in ["vmess"; "vless"; "trojan"; "anytls"; "tuic"; "hysteria2"])
          (when (type_in ["vmess"; "vless"; "trojan"]) ["security"]
           ++ when (type_in ["anytls"; "tuic"; "hysteria2"]
                    || (type_in ["vmess"; "vless"; "trojan"]
                        && negb (strict_eq_str security "none")))
                (["sni"]
                 ++ when (String.eqb type "vless" && strict_eq_str security "reality")
                      ["reality_server_addr"; "reality_server_port";
                       "reality_private_key"; "reality_public_key";
                       "reality_short_id"]
                 ++ ["fingerprint"; "allow_insecure"]))).

(** The value the security selector shows:
    [field.value ?? (type === 'vless' ? 'none' : type === 'trojan' ? 'tls' : 'none')]. *)
Definition selected_security (type : string) (current : obj) : jsval :=
  js_nullish (get current "security")
    (JStr (if String.eqb type "vless" then "none"
           else if String.eqb type "trojan" then "tls" else "none")).

(** The value the transport selector shows: [field.value ?? 'tcp']. *)
Definition selected_transport (current : obj) : jsval :=
  js_nullish (get current "transport") (JStr "tcp").

(** [Array.prototype.findIndex]: [-1] when no element passes. *)
Fixpoint findIndex {A : Type} (f : A → bool) (l : list A) : Z :=
  match l with
  | [] => (-1)%Z
  | x :: l =>
      if f x then 0%Z
      else let r := findIndex f l in if (r <? 0)%Z then (-1)%Z else (r + 1)%Z
  end.

(** The errors object handed to the invalid-submit callback: its own keys in
    [Object.keys] order, each with the [message] of its error ([None] when the
    error has none). *)
Abbreviation field_errors := (list (string * option string)).

(** The callback for an invalid submit: a toast with the message of the first
    error, when the first key is truthy.  [String(undefined)] is
    ["undefined"]. *)
Definition onInvalid (errors : field_errors) (st : ServerForm) : ServerForm :=
  match errors with
  | (key, message) :: _ =>
      if negb (String.eqb key "")
      then toast_error (default "undefined" message) st
      else st
  | [] => st
  end.

Inductive scalar_field : Type :=
  | FName | FAddress | FCountry | FCity | FRatio.

Section Interface.
Context `{Runtime} `{FormSchema}.

(** [Math.max(0, PROTOCOLS.findIndex((t) => t === type))] *)
Definition tab_index (type : string) : nat :=
  Z.to_nat (Z.max 0 (findIndex (λ t, String.eqb t type) PROTOCOLS)).

(** [protocolsValues[i] || {}] for the tab of kind [type]. *)
Definition current_slot (st : ServerForm) (type : string) : obj :=
  default ∅ (protocols (values (form st)) !! tab_index type).

(** [protocolsEnabled.includes(type)] *)
Definition isEnabled (st : ServerForm) (type : string) : bool :=
  bool_decide (type ∈ protocolsEnabled st).

(** [field.onChange(v)] of the field registered as [protocols.${i}.<field>]
    (the host field calls [form.setValue(field.name, v)], to the same effect).
    When slot [i] does not exist the form library grows the array, leaving
    holes; that case is not modelled ([None]). *)
Definition field_onChange (i : nat) (field : string) (v : jsval)
    (st : ServerForm) : option ServerForm :=
  match protocols (values (form st)) !! i with
  | Some p =>
      Some (set_form
              {| values := set_protocols (<[i := <[field := v]> p]>
                                            (protocols (values (form st))))
                             (values (form st));
                 defaultValues := defaultValues (form st) |}
              st)
  | None => None
  end.

(** [field.onChange(v)] of one of the five scalar fields. *)
Definition scalar_onChange (f : scalar_field) (v : jsval) (st : ServerForm)
    : ServerForm :=
  let vs := values (form st) in
  let vs' :=
    {| name := if f is FName then v else name vs;
       address := if f is FAddress then v else address vs;
       country := if f is FCountry then v else country vs;
       city := if f is FCity then v else city vs;
       ratio := if f is FRatio then v else ratio vs;
       protocols := protocols vs |} in
  set_form {| values := vs'; defaultValues := defaultValues (form st) |} st.

(** The confirm button: [form.handleSubmit(handleSubmit, onInvalid)].  The form
    library runs the resolver on the current values; with no error it calls
    [handleSubmit] with the resolver's values, otherwise the invalid
    callback.  The resolver ([zodResolver(formSchema)]) is a parameter. *)
Definition confirm_onClick
    (resolver : ServerFormValues → ServerFormValues * field_errors)
    (onSubmit : ServerFormValues → outcome) (st : ServerForm) : ServerForm :=
  let '(v, errors) := resolver (values (form st)) in
  match errors with
  | [] => handleSubmit onSubmit v st
  | _ => onInvalid errors st
  end.

(** What the operator can do.  A switch is controlled ([checked={isEnabled}]),
    so using it calls [onCheckedChange] with the opposite of [isEnabled]; only
    rendered fields can be edited. *)
Inductive event : Type :=
  | ClickTrigger
  | CloseSheet
  | UseSwitch (type : string)
  | EditField (type field : string) (v : jsval)
  | EditScalar (f : scalar_field) (v : jsval)
  | ClickConfirm.

Definition step (initialValues : option PartialServerFormValues)
    (resolver : ServerFormValues → ServerFormValues * field_errors)
    (onSubmit : ServerFormValues → outcome)
    (e : event) (st : ServerForm) : option ServerForm :=
  match e with
  | ClickTrigger => Some (trigger_onClick initialValues st)
  | CloseSheet => Some (setOpen false st)
  | UseSwitch type =>
      if bool_decide (type ∈ PROTOCOLS)
      then Some (onCheckedChange type (negb (isEnabled st type)) st)
      else None
  | EditField type field v =>
      if bool_decide (type ∈ PROTOCOLS)
         && bool_decide (field ∈ rendered_fields type (current_slot st type)
                                   (isEnabled st type))
      then field_onChange (tab_index type) field v st
      else None
  | EditScalar f v => Some (scalar_onChange f v st)
  | ClickConfirm => Some (confirm_onClick resolver onSubmit st)
  end.

(** The states the component can be in: mounted with the load effect run, then
    any sequence of events. *)
Inductive reachable (initialValues : option PartialServerFormValues)
    (resolver : ServerFormValues → ServerFormValues * field_errors)
    (onSubmit : ServerFormValues → outcome) : ServerForm → Prop :=
  | reachable_mount :
      reachable initialValues resolver onSubmit
        (useEffect_initialValues initialValues (mount initialValues))
  | reachable_step st e st' :
      reachable initialValues resolver onSubmit st →
      step initialValues resolver onSubmit e st = Some st' →
      reachable initialValues resolver onSubmit st'.

(** The slots line up with the catalog: one slot per kind, in catalog order,
    each carrying its kind in its [type] property. *)
Definition slots_tagged (ps : list obj) : Prop :=
  Forall2 (λ k p, get p "type" = JStr k) PROTOCOLS ps.

(** The default factory tags each default config with its kind. *)
Definition factory_tags_kinds : Prop :=
  ∀ k, k ∈ PROTOCOLS → get (getProtocolDefaultConfig k) "type" = JStr k.

(** ** The log pages: the [request] callback of both tables *)

(** The payload [data.data] of a log response: its [list] (missing or null is
    [None]) and its [total]. *)
Record log_page (A : Type) : Type := {
  log_list : option (list A);
  log_total : jsval;
}.

(** [request]: [list = data?.data?.list || []] and
    [total = Number(data?.data?.total || list.length)]; [data] and [data.data]
    may each be missing. *)
Definition request_result {A : Type} (data : option (option (log_page A)))
    : list A * number :=
  let payload := mjoin data in
  let list := default [] (payload ≫= log_list A) in
  let total := default JUndefined (log_total A <$> payload) in
  (list, Number (js_or total (JNum (Fin (inject_Z (Z.of_nat (length list))))))).

End Interface.

(** * Properties *)

Section Properties.
Context `{Runtime} `{FormSchema}.

(** *** Lists filtered with an index *)

Lemma elem_of_filter_from {A : Type} (f : A → nat → bool) (l : list A) :
  ∀ i x, x ∈ filter_from f i l ↔ ∃ j, l !! j = Some x ∧ f x (i + j) = true.
Proof.
  induction l as [|y l IH]; intros i x; simpl.
  - split; [by intros ?%elem_of_nil |].
    intros (j & Hj & _). by rewrite lookup_nil in Hj.
  - assert (Hrest : x ∈ filter_from f (S i) l ↔
                    ∃ j, (y :: l) !! S j = Some x ∧ f x (i + S j) = true).
    { rewrite IH. by setoid_rewrite Nat.add_succ_r. }
    destruct (f y i) eqn:Hy.
    + rewrite elem_of_cons, Hrest. split.
      * intros [-> | (j & ? & ?)]; [exists 0 | exists (S j)]; [|done].
        by rewrite Nat.add_0_r.
      * intros ([|j] & Hj & Hf); [left | right; eauto].
        by injection Hj.
    + rewrite Hrest. split.
      * intros (j & ? & ?). by exists (S j).
      * intros ([|j] & Hj & Hf); [| eauto].
        injection Hj as ->. rewrite Nat.add_0_r in Hf. congruence.
Qed.

Lemma elem_of_filteri {A : Type} (f : A → nat → bool) (l : list A) x :
  x ∈ filteri f l ↔ ∃ j, l !! j = Some x ∧ f x j = true.
Proof. unfold filteri. by rewrite elem_of_filter_from. Qed.

(** The callback of [handleSubmit], case by case. *)
Lemma keep_true enabled p index :
  keep enabled p index = true ↔
  ∃ k, PROTOCOLS !! index = Some k ∧ k ≠ "" ∧ k ∈ enabled
       ∧ port_in_range (Number (get p "port")) = true.
Proof.
  unfold keep, port_in_range. destruct (PROTOCOLS !! index) as [k|].
  - rewrite !andb_true_iff, negb_true_iff, bool_decide_eq_true.
    rewrite String.eqb_neq. split.
    + intros ((((? & ?) & Hf) & Hg) & Hl). exists k. repeat split; try done.
      by rewrite Hf, Hg, Hl.
    + intros (k' & [= <-] & ? & ? & Hr).
      apply andb_true_iff in Hr as [Hr ?]. apply andb_true_iff in Hr as [? ?].
      by repeat split.
  - split; [done | by intros (k & ? & _)].
Qed.

Lemma filter_from_app {A : Type} (f : A → nat → bool) (l1 l2 : list A) :
  ∀ i, filter_from f i (l1 ++ l2)
       = filter_from f i l1 ++ filter_from f (i + length l1) l2.
Proof.
  induction l1 as [|x l1 IH]; intros i; simpl.
  - by rewrite Nat.add_0_r.
  - rewrite IH, Nat.add_succ_r. by destruct (f x i).
Qed.

Lemma filter_from_none {A : Type} (f : A → nat → bool) (l : list A) i :
  (∀ j y, l !! j = Some y → f y (i + j) = false) → filter_from f i l = [].
Proof.
  intros Hno. destruct (filter_from f i l) as [|x r] eqn:E; [done|].
  assert (Hx : x ∈ filter_from f i l) by (rewrite E; left).
  apply elem_of_filter_from in Hx as (j & Hj & Hf).
  rewrite (Hno _ _ Hj) in Hf. discriminate.
Qed.

(** When exactly one position passes the callback, the result is that one
    element. *)
Lemma filteri_single {A : Type} (f : A → nat → bool) (l : list A) j x :
  l !! j = Some x → f x j = true →
  (∀ j' y, j' ≠ j → l !! j' = Some y → f y j' = false) →
  filteri f l = [x].
Proof.
  intros Hj Hf Hother. unfold filteri.
  rewrite <- (take_drop_middle l j x Hj), filter_from_app. simpl.
  assert (Hlen : length (take j l) = j).
  { apply length_take_le. apply lookup_lt_Some in Hj. lia. }
  rewrite Hlen, Hf.
  assert (Hbefore : filter_from f 0 (take j l) = []).
  { apply filter_from_none. intros j' y Hy. simpl.
    pose proof (lookup_lt_Some _ _ _ Hy) as Hlt. rewrite Hlen in Hlt.
    apply Hother; [lia|]. by rewrite lookup_take_lt in Hy. }
  assert (Hafter : filter_from f (S (0 + j)) (drop (S j) l) = []).
  { apply filter_from_none. intros j' y Hy. rewrite lookup_drop in Hy.
    apply Hother; [lia|]. by replace (S (0 + j) + j') with (S j + j') by lia. }
  simpl in Hafter. by rewrite Hbefore, Hafter.
Qed.

(** C1 (amended): for every form state and every enabled set, [handleSubmit]
    keeps exactly the configs whose kind, read at the same index of the
    catalog, is in the enabled set and whose port coerces to a finite number
    strictly greater than 0 and at most 65535 (whether it is an integer is not
    looked at), each with its port replaced by that number.  In particular, when
    shadowsocks is enabled, its slot carries port 8388 and every other slot
    is of a disabled kind or has a port out of range, the kept list is that
    single entry with port 8388, whatever else the other slots hold. *)
Theorem handleSubmit_keeps_enabled_in_range :
  (∀ enabled v e,
     e ∈ filtered enabled v ↔
     ∃ index p k,
       protocols v !! index = Some p ∧ PROTOCOLS !! index = Some k
       ∧ k ≠ "" ∧ k ∈ enabled
       ∧ port_in_range (Number (get p "port")) = true
       ∧ e = normalize_port p)
  ∧ (∀ enabled v index p,
       PROTOCOLS !! index = Some "shadowsocks" →
       "shadowsocks" ∈ enabled →
       protocols v !! index = Some p →
       Number (get p "port") = Fin 8388 →
       (∀ j q k, j ≠ index →
          protocols v !! j = Some q → PROTOCOLS !! j = Some k →
          k ∉ enabled ∨ port_in_range (Number (get q "port")) = false) →
       filtered enabled v = [<["port" := JNum (Fin 8388)]> p]).
Proof.
  split.
  - intros enabled v e. unfold filtered.
    rewrite list_elem_of_In, in_map_iff. split.
    + intros (p & <- & Hp). apply list_elem_of_In, elem_of_filteri in Hp.
      destruct Hp as (index & Hidx & Hkeep).
      apply keep_true in Hkeep as (k & ? & ? & ? & ?).
      by exists index, p, k.
    + intros (index & p & k & Hidx & Hk & Hne & Hin & Hport & ->).
      exists p. split; [done|]. apply list_elem_of_In, elem_of_filteri.
      exists index. split; [done|]. apply keep_true. by exists k.
  - intros enabled v index p Hcat Hin Hslot Hport Hothers. unfold filtered.
    rewrite (filteri_single _ _ index p); simpl.
    + unfold normalize_port. by rewrite Hport.
    + done.
    + apply keep_true. exists "shadowsocks". repeat split; try done.
      by rewrite Hport.
    + intros j' y Hne Hy. destruct (keep enabled y j') eqn:Hk; [|done].
      apply keep_true in Hk as (k & Hk & _ & Hkin & Hrange).
      destruct (Hothers j' y k Hne Hy Hk) as [Hout | Hbad]; [done | congruence].
Qed.

(** *** What [handleSubmit] does, by case *)

Lemma handleSubmit_empty onSubmit v st :
  filtered (protocolsEnabled st) v = [] →
  handleSubmit onSubmit v st = toast_error "validation_failed" st.
Proof. intros E. unfold handleSubmit. by rewrite E. Qed.

Lemma handleSubmit_nonempty onSubmit v st :
  filtered (protocolsEnabled st) v ≠ [] →
  handleSubmit onSubmit v st =
    let r := result (protocolsEnabled st) v in
    let st' := record_onSubmit r st in
    match onSubmit r with
    | Resolved true => setOpen false (set_form (form_reset None (form st')) st')
    | _ => st'
    end.
Proof.
  intros E. unfold handleSubmit.
  destruct (filtered (protocolsEnabled st) v) as [|e l]; [done|]. simpl.
  by destruct (onSubmit _) as [[]|].
Qed.

(** The kept list is empty exactly when the callback rejects every slot: no
    slot is both of an enabled kind and with a port in range. *)
Lemma filtered_empty_iff enabled v :
  filtered enabled v = [] ↔
  ∀ index p, protocols v !! index = Some p → keep enabled p index = false.
Proof.
  unfold filtered. split.
  - intros E index p Hp. destruct (keep enabled p index) eqn:Hk; [|done].
    assert (Hin : p ∈ filteri (keep enabled) (protocols v)).
    { apply elem_of_filteri. by exists index. }
    destruct (filteri (keep enabled) (protocols v)); [|done].
    by apply elem_of_nil in Hin.
  - intros Hall. unfold filteri. rewrite filter_from_none; [done|].
    intros j y Hy. by apply Hall.
Qed.

(** C2 (amended): every entry of the kept list is one of the edited slots with
    only its [port] property replaced by the coerced number; every other
    property of the slot, whether or not it is meaningful for the slot's
    kind, transport mode or security mode, is passed through unchanged (no
    property is removed). *)
Theorem handleSubmit_passes_fields_through enabled v e :
  e ∈ filtered enabled v →
  ∃ index p,
    protocols v !! index = Some p
    ∧ keep enabled p index = true
    ∧ e !! "port" = Some (JNum (Number (get p "port")))
    ∧ ∀ field, field ≠ "port" → e !! field = p !! field.
Proof.
  unfold filtered. rewrite list_elem_of_In, in_map_iff.
  intros (p & <- & Hp). apply list_elem_of_In, elem_of_filteri in Hp.
  destruct Hp as (index & Hidx & Hkeep). exists index, p.
  unfold normalize_port. repeat split; try done.
  - apply lookup_insert_eq.
  - intros field Hne. by apply lookup_insert_ne.
Qed.

(** C3: when the kept list is empty, [handleSubmit] shows one error toast and
    returns: [onSubmit] is not called (whatever it is), no submission is
    recorded, and the form values, the enabled set and the sheet's open flag
    are left as they were. *)
Theorem handleSubmit_rejects_empty onSubmit v st :
  filtered (protocolsEnabled st) v = [] →
  let st' := handleSubmit onSubmit v st in
  toasts st' = toasts st ++ ["validation_failed"]
  ∧ submitted st' = submitted st
  ∧ (∀ onSubmit', handleSubmit onSubmit' v st = st')
  ∧ form st' = form st
  ∧ open st' = open st
  ∧ protocolsEnabled st' = protocolsEnabled st.
Proof.
  intros E st'. subst st'. rewrite handleSubmit_empty by done.
  repeat split; try done.
  intros onSubmit'. by apply handleSubmit_empty.
Qed.


(** *** The committed ratio *)

(** [Number(values.ratio || 1)]: a truthy ratio is coerced, a falsy one (absent,
    [null], [''], [NaN] and also [0]) becomes 1. *)
Lemma result_ratio_cases enabled v :
  ratio (result enabled v)
  = JNum (if ToBoolean (ratio v) then Number (ratio v) else Fin 1).
Proof. unfold result, js_or. simpl. by destruct (ToBoolean (ratio v)). Qed.

Lemma result_ratio_number enabled v n :
  ratio v = JNum n → ToBoolean (JNum n) = true →
  ratio (result enabled v) = JNum n.
Proof. intros Hr Ht. by rewrite result_ratio_cases, Hr, Ht. Qed.

(** *** The reducer is positional *)

Lemma keep_kind enabled p index :
  keep enabled p index =
    match PROTOCOLS !! index with
    | Some k => kind_enabled enabled k && port_in_range (Number (get p "port"))
    | None => false
    end.
Proof.
  unfold keep, kind_enabled, port_in_range.
  destruct (PROTOCOLS !! index); [|done]. by rewrite !andb_assoc.
Qed.

Lemma filter_from_ext {A : Type} (f g : A → nat → bool) (l : list A) :
  (∀ x i, f x i = g x i) → ∀ i, filter_from f i l = filter_from g i l.
Proof.
  intros Hfg. induction l as [|x l IH]; intros i; simpl; [done|].
  by rewrite Hfg, IH.
Qed.

(** The indexed filter of [handleSubmit] is the filter over the slots paired
    with the catalog kinds. *)
Lemma filter_from_keep_zip enabled (l : list obj) :
  ∀ i, filter_from (keep enabled) i l
       = (List.filter
            (λ kp : string * obj,
               kind_enabled enabled kp.1 && port_in_range (Number (get kp.2 "port")))
            (zip (drop i PROTOCOLS) l)).*2.
Proof.
  induction l as [|p l IH]; intros i; simpl.
  - by rewrite zip_with_nil_r.
  - rewrite keep_kind. destruct (PROTOCOLS !! i) as [k|] eqn:Hk.
    + rewrite (drop_S _ _ _ Hk). simpl. rewrite IH.
      by destruct (kind_enabled enabled k && _).
    + apply lookup_ge_None in Hk. rewrite drop_ge by done. simpl.
      apply filter_from_none. intros j y _. rewrite keep_kind.
      by rewrite (proj2 (lookup_ge_None PROTOCOLS (S i + j))) by lia.
Qed.

Lemma filtered_kept_by_kind enabled v :
  filtered enabled v = (normalize_port ∘ snd) <$> kept_by_kind enabled v.
Proof.
  unfold filtered, filteri, kept_by_kind.
  rewrite filter_from_keep_zip, drop_0.
  generalize (List.filter
    (λ kp : string * obj,
       kind_enabled enabled kp.1 && port_in_range (Number (get kp.2 "port")))
    (zip PROTOCOLS (protocols v))).
  intros l. induction l as [|kp l IH]; [done|]. cbn. f_equal. apply IH.
Qed.

Lemma sublist_List_filter {A : Type} (f : A → bool) (l : list A) :
  List.filter f l `sublist_of` l.
Proof.
  induction l as [|x l IH]; simpl; [constructor|].
  destruct (f x); by constructor.
Qed.

Lemma kind_enabled_ext e1 e2 k :
  (∀ k, k ∈ e1 ↔ k ∈ e2) → kind_enabled e1 k = kind_enabled e2 k.
Proof.
  intros Hiff. unfold kind_enabled. f_equal. apply bool_decide_ext, Hiff.
Qed.

(** C6: the reducer decides by position.  The kept list is obtained by pairing
    every slot with the catalog kind at the same index and keeping the pairs
    whose catalog kind is enabled and whose port is in range; the slot's own
    [type] property is never read, so rewriting it changes no decision, and a
    slot that sits at the index of a disabled kind is dropped whatever its
    [type] says.  The kinds of the kept entries form a subsequence of the
    catalog, and the kept list depends on the enabled list only through its
    membership, not through the order in which kinds were switched on. *)
Theorem handleSubmit_is_positional :
  (∀ enabled v,
     filtered enabled v = (normalize_port ∘ snd) <$> kept_by_kind enabled v
     ∧ (kept_by_kind enabled v).*1 `sublist_of` PROTOCOLS)
  ∧ (∀ enabled p index t, keep enabled (<["type" := t]> p) index = keep enabled p index)
  ∧ (∀ enabled p index k,
       PROTOCOLS !! index = Some k → k ∉ enabled → keep enabled p index = false)
  ∧ (∀ e1 e2 v, (∀ k, k ∈ e1 ↔ k ∈ e2) → filtered e1 v = filtered e2 v).
Proof.
  repeat split.
  - apply filtered_kept_by_kind.
  - unfold kept_by_kind.
    etrans; [apply fmap_sublist, sublist_List_filter|].
    generalize (protocols v). generalize PROTOCOLS.
    induction l as [|k l IH]; intros [|p ps]; simpl; try constructor.
    + apply sublist_nil_l.
    + apply IH.
  - intros enabled p index t. rewrite !keep_kind.
    unfold get. by rewrite lookup_insert_ne.
  - intros enabled p index k Hk Hout. rewrite keep_kind, Hk.
    unfold kind_enabled. by rewrite (bool_decide_eq_false_2 _ Hout), andb_false_r.
  - intros e1 e2 v Hiff. unfold filtered, filteri. f_equal.
    apply filter_from_ext. intros p i. rewrite !keep_kind.
    destruct (PROTOCOLS !! i); [|done]. by rewrite (kind_enabled_ext e1 e2).
Qed.

(** *** The enable switch *)

Lemma filter_from_insert {A : Type} (f : A → nat → bool) (l : list A) :
  ∀ i j x y,
    l !! j = Some x → f x (i + j) = false → f y (i + j) = false →
    filter_from f i (<[j := y]> l) = filter_from f i l.
Proof.
  induction l as [|z l IH]; intros i j x y Hj Hx Hy; [done|].
  destruct j as [|j]; simpl in *.
  - injection Hj as ->. rewrite Nat.add_0_r in Hx, Hy. by rewrite Hx, Hy.
  - rewrite Nat.add_succ_r in Hx, Hy. by rewrite (IH (S i) j x y).
Qed.

Lemma elem_of_switch_off (type k : string) (enabled : list string) :
  k ∈ List.filter (λ p, negb (String.eqb p type)) enabled ↔ k ∈ enabled ∧ k ≠ type.
Proof.
  rewrite !list_elem_of_In, filter_In, negb_true_iff, String.eqb_neq. done.
Qed.

(** C7: switching a protocol on or off changes nothing but the enabled list,
    and in that list only the membership of the switched kind: the form values
    (every slot, every property) are untouched, so switching a kind off and on
    again leaves the operator's input as it was.  And while a kind is off,
    whatever its slot holds has no influence on the kept list: replacing the
    slot by any other object gives the same kept list. *)
Theorem switch_changes_membership_only :
  (∀ type checked st,
     let st' := onCheckedChange type checked st in
     form st' = form st
     ∧ open st' = open st
     ∧ (∀ k, k ≠ type → k ∈ protocolsEnabled st' ↔ k ∈ protocolsEnabled st)
     ∧ (type ∈ protocolsEnabled st' ↔ checked = true))
  ∧ (∀ type st,
       let st' := onCheckedChange type true (onCheckedChange type false st) in
       form st' = form st
       ∧ ∀ k, k ∈ protocolsEnabled st' ↔ k ∈ protocolsEnabled st ∨ k = type)
  ∧ (∀ type st v index p,
       PROTOCOLS !! index = Some type →
       let off := protocolsEnabled (onCheckedChange type false st) in
       filtered off (set_protocols (<[index := p]> (protocols v)) v) = filtered off v).
Proof.
  split; [|split].
  - intros type checked st st'. subst st'.
    split; [by destruct checked|]. split; [by destruct checked|]. split.
    + intros k Hne. destruct checked; simpl.
      * rewrite elem_of_app, list_elem_of_singleton. tauto.
      * rewrite elem_of_switch_off. tauto.
    + destruct checked; simpl.
      * rewrite elem_of_app, list_elem_of_singleton. tauto.
      * rewrite elem_of_switch_off. split; [tauto | done].
  - intros type st st'. subst st'. split; [done|]. intros k. simpl.
    rewrite elem_of_app, list_elem_of_singleton, elem_of_switch_off.
    destruct (decide (k = type)); tauto.
  - intros type st v index p Hk off. unfold filtered, filteri. simpl. f_equal.
    assert (Hoff : ∀ q, keep off q index = false).
    { intros q. rewrite keep_kind, Hk. unfold kind_enabled.
      rewrite bool_decide_eq_false_2; [by rewrite andb_false_r|].
      subst off. simpl. rewrite elem_of_switch_off. tauto. }
    destruct (protocols v !! index) as [x|] eqn:Hx.
    + by apply (filter_from_insert _ _ 0 index x p).
    + rewrite list_insert_ge; [done|]. by apply lookup_ge_None.
Qed.

(** *** Initialization: a new node, a loaded node *)

Lemma strict_eq_str_true v s : strict_eq_str v s = true ↔ v = JStr s.
Proof.
  destruct v; simpl; try (split; [discriminate | discriminate]).
  rewrite String.eqb_eq. split; [by intros -> | by intros [= ->]].
Qed.

Lemma find_protocol_Some iv k p :
  find_protocol iv k = Some p → p ∈ loaded_protocols iv ∧ get p "type" = JStr k.
Proof.
  unfold find_protocol, loaded_protocols.
  destruct (p_protocols iv) as [ps|]; simpl; [|done].
  intros [Hin Hty]%find_some. split.
  - by apply list_elem_of_In.
  - by apply strict_eq_str_true.
Qed.

Lemma find_protocol_None iv k :
  find_protocol iv k = None → ∀ q, q ∈ loaded_protocols iv → get q "type" ≠ JStr k.
Proof.
  unfold find_protocol, loaded_protocols.
  destruct (p_protocols iv) as [ps|]; simpl.
  - intros Hnone q Hq%list_elem_of_In Hty.
    apply (find_none _ _ Hnone) in Hq. apply strict_eq_str_true in Hty. congruence.
  - by intros _ q ?%elem_of_nil.
Qed.

Lemma same_type_same_config (ps : list obj) p q :
  one_config_per_type ps → p ∈ ps → q ∈ ps →
  get p "type" = get q "type" → p = q.
Proof.
  unfold one_config_per_type.
  intros Hnd [i Hi]%list_elem_of_lookup [j Hj]%list_elem_of_lookup Hty.
  assert (i = j) as ->; [|congruence].
  eapply NoDup_lookup; [done| |].
  - rewrite list_lookup_fmap, Hi. done.
  - rewrite list_lookup_fmap, Hj. simpl. by rewrite Hty.
Qed.

Lemma find_protocol_unique iv k p :
  one_config_per_type (loaded_protocols iv) →
  p ∈ loaded_protocols iv → get p "type" = JStr k → find_protocol iv k = Some p.
Proof.
  intros Hone Hp Hty. destruct (find_protocol iv k) as [q|] eqn:Hq.
  - apply find_protocol_Some in Hq as [Hq Hqty]. f_equal.
    apply (same_type_same_config (loaded_protocols iv)); congruence.
  - by destruct (find_protocol_None iv k Hq p Hp).
Qed.

Lemma lookup_List_map {A B : Type} (f : A → B) (l : list A) i :
  List.map f l !! i = f <$> l !! i.
Proof. revert i. induction l as [|x l IH]; intros [|i]; simpl; auto. Qed.

(** C8 (amended): after either initialization path the protocols array has one
    slot per catalog kind, in catalog order.  For a new node every slot is the
    default config of its kind.  For a loaded node the slot of a kind is a
    loaded config with that [type] when the node has one, and the default
    config of the kind otherwise; opening the sheet on a loaded node leaves the
    slots as they are.  The fallback is per slot, not per property: the slot
    of a kind the node has a config for is that config (the first of its
    type) exactly as stored, so a property the stored config lacks is still
    missing in the editor. *)
Theorem slots_after_initialization :
  (∀ st,
     let ps := protocols (values (form (trigger_onClick None st))) in
     length ps = length PROTOCOLS
     ∧ ∀ index k, PROTOCOLS !! index = Some k →
         ps !! index = Some (getProtocolDefaultConfig k))
  ∧ (∀ iv st,
       let ps := protocols (values (form (useEffect_initialValues (Some iv) st))) in
       length ps = length PROTOCOLS
       ∧ (∀ index k, PROTOCOLS !! index = Some k →
            ∃ s, ps !! index = Some s
                 ∧ ((s ∈ loaded_protocols iv ∧ get s "type" = JStr k)
                    ∨ ((∀ q, q ∈ loaded_protocols iv → get q "type" ≠ JStr k)
                       ∧ s = getProtocolDefaultConfig k)))
       ∧ form (trigger_onClick (Some iv) (useEffect_initialValues (Some iv) st))
         = form (useEffect_initialValues (Some iv) st)
       ∧ (∀ index k p, PROTOCOLS !! index = Some k →
            find_protocol iv k = Some p →
            ps !! index = Some p
            ∧ ∀ field, p !! field = None →
                ∃ s, ps !! index = Some s ∧ get s field = JUndefined)).
Proof.
  split.
  - intros st ps. subst ps. simpl. split; [apply length_map|].
    intros index k Hk. by rewrite lookup_List_map, Hk.
  - intros iv st ps. subst ps. simpl. split; [apply length_map|].
    split; [|split; [done|]].
    + intros index k Hk. exists (slot_on_load iv k). split.
      * by rewrite lookup_List_map, Hk.
      * unfold slot_on_load. destruct (find_protocol iv k) as [p|] eqn:Hp.
        -- left. by apply find_protocol_Some.
        -- right. split; [|done]. by apply find_protocol_None.
    + intros index k p Hk Hp.
      assert (Hslot : List.map (slot_on_load iv) PROTOCOLS !! index = Some p).
      { rewrite lookup_List_map, Hk. simpl. unfold slot_on_load. by rewrite Hp. }
      split; [done|]. intros field Hnone. exists p. split; [done|].
      unfold get. by rewrite Hnone.
Qed.

(** *** Numbers and truthiness *)

Lemma positive_is_truthy v :
  num_gt (Number v) (Fin 0) = true → ToBoolean v = true.
Proof.
  destruct v as [| |[]|[| | |q]|s]; simpl; try done.
  - unfold num_gt, num_lt, Qlt_bool. intros Hpos.
    destruct (Qeq_bool q 0) eqn:Hz; [|done].
    apply Qeq_bool_iff in Hz. apply negb_true_iff in Hpos.
    assert (Hle : Qle_bool q 0 = true); [|congruence].
    apply Qle_bool_iff. rewrite Hz. apply Qle_refl.
  - destruct (String.eqb_spec s "") as [->|]; [|done].
    by rewrite StringToNumber_empty.
Qed.

Lemma port_in_range_positive n :
  port_in_range n = true → num_gt n (Fin 0) = true.
Proof. unfold port_in_range. by intros [[_ ?]%andb_true_iff _]%andb_true_iff. Qed.

Lemma above_range n :
  num_gt n (Fin 65535) = true →
  num_gt n (Fin 0) = true ∧ num_le n (Fin 65535) = false.
Proof.
  destruct n as [| | |q]; simpl; try done.
  unfold num_gt, num_lt, Qlt_bool. simpl. intros Hgt%negb_true_iff.
  split; [|done]. apply negb_true_iff.
  destruct (Qle_bool q 0) eqn:Hle; [|done].
  assert (Hle' : Qle_bool q 65535 = true); [|congruence].
  apply Qle_bool_iff. apply Qle_bool_iff in Hle.
  eapply Qle_trans; [done|]. by apply Qle_bool_iff.
Qed.

(** *** Which kinds a loaded node enables *)

Lemma elem_of_enabled_on_load iv st k :
  k ∈ protocolsEnabled (useEffect_initialValues (Some iv) st) ↔
  k ∈ PROTOCOLS ∧ enabled_on_load iv k = true.
Proof. simpl. by rewrite !list_elem_of_In, filter_In. Qed.

Lemma enabled_on_load_true iv k :
  enabled_on_load iv k = true ↔
  ∃ p, find_protocol iv k = Some p
       ∧ ToBoolean (get p "port") = true
       ∧ num_gt (Number (get p "port")) (Fin 0) = true.
Proof.
  unfold enabled_on_load. destruct (find_protocol iv k) as [p|].
  - rewrite andb_true_iff. split; [by exists p | by intros (? & [= <-] & ?)].
  - split; [done | by intros (? & ? & _)].
Qed.

(** C10: loading a node marks a kind enabled exactly when the kind is in the
    catalog and the config the loader finds for that type has a truthy port
    that coerces to a number above 0; under one config per type this is any
    config of the node with that type.  No upper bound is applied: a config
    whose port coerces to a number above 65535 (70000, say) has its kind
    enabled and sits in its slot after the load, and the reducer's callback
    rejects that slot. *)
Theorem load_enables_positive_ports :
  (∀ iv st k,
     k ∈ protocolsEnabled (useEffect_initialValues (Some iv) st) ↔
     k ∈ PROTOCOLS
     ∧ ∃ p, find_protocol iv k = Some p
            ∧ ToBoolean (get p "port") = true
            ∧ num_gt (Number (get p "port")) (Fin 0) = true)
  ∧ (∀ iv st k,
       one_config_per_type (loaded_protocols iv) →
       k ∈ protocolsEnabled (useEffect_initialValues (Some iv) st) ↔
       k ∈ PROTOCOLS
       ∧ ∃ p, p ∈ loaded_protocols iv ∧ get p "type" = JStr k
              ∧ ToBoolean (get p "port") = true
              ∧ num_gt (Number (get p "port")) (Fin 0) = true)
  ∧ (∀ iv st index k p,
       PROTOCOLS !! index = Some k →
       find_protocol iv k = Some p →
       num_gt (Number (get p "port")) (Fin 65535) = true →
       let st' := useEffect_initialValues (Some iv) st in
       k ∈ protocolsEnabled st'
       ∧ protocols (values (form st')) !! index = Some p
       ∧ keep (protocolsEnabled st') p index = false).
Proof.
  split; [|split].
  - intros iv st k. by rewrite elem_of_enabled_on_load, enabled_on_load_true.
  - intros iv st k Hone.
    rewrite elem_of_enabled_on_load, enabled_on_load_true. split.
    + intros (Hk & p & Hp & Ht & Hg). split; [done|]. exists p.
      apply find_protocol_Some in Hp as [? ?]. done.
    + intros (Hk & p & Hp & Hty & Ht & Hg). split; [done|]. exists p.
      split; [|done]. by apply find_protocol_unique.
  - intros iv st index k p Hk Hfind Habove st'.
    apply above_range in Habove as [Hpos Hle]. repeat split.
    + subst st'. rewrite elem_of_enabled_on_load, enabled_on_load_true. split.
      * by eapply list_elem_of_lookup_2.
      * exists p. split; [done|]. split; [|done]. by apply positive_is_truthy.
    + subst st'. simpl. rewrite lookup_List_map, Hk. simpl.
      unfold slot_on_load. by rewrite Hfind.
    + rewrite keep_kind, Hk. unfold port_in_range.
      by rewrite Hle, !andb_false_r.
Qed.

(** *** Round trip: load, then submit without editing *)

Lemma filter_zip_map {B : Type} (F : string * obj → bool) (g : string → obj)
    (h : string * obj → B) (l : list string) :
  h <$> List.filter F (zip l (List.map g l))
  = (λ k, h (k, g k)) <$> List.filter (λ k, F (k, g k)) l.
Proof.
  induction l as [|k l IH]; [done|]. cbn [zip_with List.map List.filter].
  destruct (F (k, g k)); [cbn; f_equal|]; apply IH.
Qed.

Lemma filtered_after_load iv st :
  filtered (protocolsEnabled (useEffect_initialValues (Some iv) st))
    (values (form (useEffect_initialValues (Some iv) st)))
  = (λ k, normalize_port (slot_on_load iv k))
    <$> List.filter
          (λ k, kind_enabled
                  (protocolsEnabled (useEffect_initialValues (Some iv) st)) k
                && has_valid_port (slot_on_load iv k))
          PROTOCOLS.
Proof.
  rewrite filtered_kept_by_kind. unfold kept_by_kind. simpl.
  by rewrite (filter_zip_map _ (slot_on_load iv) (normalize_port ∘ snd)).
Qed.

(** A catalog kind passes after a load exactly when the loader finds a config
    of that type with a port in range. *)
Lemma kept_after_load_iff iv st k :
  "" ∉ PROTOCOLS → k ∈ PROTOCOLS →
  kind_enabled (protocolsEnabled (useEffect_initialValues (Some iv) st)) k
  && has_valid_port (slot_on_load iv k) = true
  ↔ ∃ p, find_protocol iv k = Some p ∧ has_valid_port p = true.
Proof.
  intros Hne Hk. unfold kind_enabled.
  rewrite !andb_true_iff, negb_true_iff, String.eqb_neq, bool_decide_eq_true.
  rewrite elem_of_enabled_on_load, enabled_on_load_true. split.
  - intros ((_ & _ & p & Hp & _) & Hvalid). exists p. split; [done|].
    unfold slot_on_load in Hvalid. by rewrite Hp in Hvalid.
  - intros (p & Hp & Hvalid).
    assert (Hpos := port_in_range_positive _ Hvalid).
    split; [split; [by intros -> | split; [done|]] |].
    + exists p. split; [done|]. split; [|done]. by apply positive_is_truthy.
    + unfold slot_on_load. by rewrite Hp.
Qed.

Lemma normalize_port_type p : get (normalize_port p) "type" = get p "type".
Proof. unfold normalize_port, get. by rewrite lookup_insert_ne. Qed.

Lemma normalize_port_number p n :
  p !! "port" = Some (JNum n) → normalize_port p = p.
Proof.
  intros Hp. unfold normalize_port, get. rewrite Hp. simpl. by apply insert_id.
Qed.

Lemma elem_of_List_filter {A : Type} (f : A → bool) (l : list A) x :
  x ∈ List.filter f l ↔ x ∈ l ∧ f x = true.
Proof. by rewrite !list_elem_of_In, filter_In. Qed.

(** C4: for a loaded node that has at most one config per type, all of kinds
    of the catalog, loading it and submitting without an edit keeps exactly
    the loaded configs whose port is in range, each once (with the port
    coerced to a number, which changes nothing when it already is one), and
    when that list is not empty it is the protocols list handed to
    [onSubmit]. *)
Theorem load_then_submit_round_trip iv st onSubmit :
  NoDup PROTOCOLS → "" ∉ PROTOCOLS →
  one_config_per_type (loaded_protocols iv) →
  known_types (loaded_protocols iv) →
  let st' := useEffect_initialValues (Some iv) st in
  let kept := filtered (protocolsEnabled st') (values (form st')) in
  kept ≡ₚ normalize_port <$> List.filter has_valid_port (loaded_protocols iv)
  ∧ ((∀ p, p ∈ loaded_protocols iv → ∃ n, p !! "port" = Some (JNum n)) →
     kept ≡ₚ List.filter has_valid_port (loaded_protocols iv))
  ∧ (kept ≠ [] →
     protocols <$> submitted (handleSubmit onSubmit (values (form st')) st')
     = (protocols <$> submitted st) ++ [kept]).
Proof.
  intros Hnd Hne Hone Hknown st' kept.
  assert (Hperm : kept ≡ₚ normalize_port
                            <$> List.filter has_valid_port (loaded_protocols iv)).
  { subst kept st'. rewrite filtered_after_load. apply NoDup_Permutation.
    - apply NoDup_fmap_2_strong.
      + intros k1 k2 [Hk1 Hp1]%elem_of_List_filter [Hk2 Hp2]%elem_of_List_filter Heq.
        apply (kept_after_load_iff iv st) in Hp1 as (p1 & Hf1 & _); [|done..].
        apply (kept_after_load_iff iv st) in Hp2 as (p2 & Hf2 & _); [|done..].
        unfold slot_on_load in Heq. rewrite Hf1, Hf2 in Heq.
        apply find_protocol_Some in Hf1 as [_ Ht1].
        apply find_protocol_Some in Hf2 as [_ Ht2].
        apply (f_equal (λ o, get o "type")) in Heq.
        rewrite !normalize_port_type in Heq. congruence.
      + by eapply sublist_NoDup, sublist_List_filter.
    - apply NoDup_fmap_2_strong.
      + intros p q [Hp _]%elem_of_List_filter [Hq _]%elem_of_List_filter Heq.
        apply (same_type_same_config (loaded_protocols iv)); [done..|].
        apply (f_equal (λ o, get o "type")) in Heq.
        by rewrite !normalize_port_type in Heq.
      + eapply sublist_NoDup, sublist_List_filter.
        by eapply NoDup_fmap_1.
    - intros e. rewrite !list_elem_of_fmap. split.
      + intros (k & -> & [Hk Hpass]%elem_of_List_filter).
        apply (kept_after_load_iff iv st) in Hpass as (p & Hf & Hvalid); [|done..].
        exists p. unfold slot_on_load. rewrite Hf. split; [done|].
        apply elem_of_List_filter. split; [|done].
        exact (proj1 (find_protocol_Some _ _ _ Hf)).
      + intros (p & -> & [Hp Hvalid]%elem_of_List_filter).
        destruct (Hknown p Hp) as (k & Hk & Hty). exists k.
        assert (Hf : find_protocol iv k = Some p) by by apply find_protocol_unique.
        unfold slot_on_load. rewrite Hf. split; [done|].
        apply elem_of_List_filter. split; [done|].
        apply kept_after_load_iff; [done..|]. by exists p. }
  split; [done|]. split.
  - intros Hnum. rewrite Hperm.
    assert (Hid : ∀ l : list obj,
              (∀ p, p ∈ l → ∃ n, p !! "port" = Some (JNum n)) →
              normalize_port <$> l = l).
    { induction l as [|p l IH]; intros Hl; [done|]. rewrite fmap_cons.
      destruct (Hl p) as [n Hn]; [left|].
      rewrite (normalize_port_number p n Hn). f_equal. apply IH.
      intros q Hq. apply Hl. by right. }
    rewrite Hid; [done|]. intros p [Hp _]%elem_of_List_filter. by apply Hnum.
  - intros Hkept. subst kept st'. rewrite handleSubmit_nonempty by done. simpl.
    destruct (onSubmit _) as [[]|]; simpl; by rewrite fmap_app.
Qed.

End Properties.

(** * Properties of the rest of the component *)

Section InterfaceProperties.
Context `{Runtime} `{FormSchema}.

(** *** Which fields a tab renders *)

Lemma elem_of_existsb (f : string) (l : list string) :
  f ∈ l ↔ existsb (String.eqb f) l = true.
Proof.
  rewrite list_elem_of_In, existsb_exists. split.
  - intros Hf. exists f. split; [done|]. apply String.eqb_refl.
  - by intros (x & Hx & ->%String.eqb_eq).
Qed.

Lemma existsb_when (g : string → bool) b l :
  existsb g (when b l) = b && existsb g l.
Proof. by destruct b. Qed.

Lemma type_in_iff (type : string) (l : list string) :
  existsb (λ t, String.eqb t type) l = true ↔ type ∈ l.
Proof.
  rewrite list_elem_of_In, existsb_exists. split.
  - by intros (x & Hx & ->%String.eqb_eq).
  - intros Hf. exists type. split; [done|]. apply String.eqb_refl.
Qed.

Lemma strict_eq_str_iff v s : strict_eq_str v s = true ↔ v = JStr s.
Proof.
  destruct v; simpl; try (split; discriminate).
  rewrite String.eqb_eq. split; [by intros -> | by intros [= ->]].
Qed.

Lemma strict_eq_str_false v s : strict_eq_str v s = false ↔ v ≠ JStr s.
Proof.
  rewrite <- strict_eq_str_iff. by destruct (strict_eq_str v s).
Qed.

Lemma includes_str_iff l v :
  includes_str l v = true ↔ ∃ m, m ∈ l ∧ v = JStr m.
Proof.
  unfold includes_str. rewrite existsb_exists.
  setoid_rewrite strict_eq_str_iff. by setoid_rewrite list_elem_of_In.
Qed.

(** Membership of a literal field name in the rendered list, as a boolean
    formula over the tests of the JSX. *)
Ltac literal_membership :=
  repeat match goal with
  | |- context [existsb (String.eqb ?f) ?l] =>
      let b := eval vm_compute in (existsb (String.eqb f) l) in
      change (existsb (String.eqb f) l) with b
  end.

Ltac rendered_bool :=
  rewrite elem_of_existsb; unfold rendered_fields;
  repeat (rewrite existsb_when || rewrite existsb_app);
  literal_membership;
  rewrite ?andb_false_r, ?orb_false_r, ?andb_true_r, ?orb_false_l,
    ?andb_false_l.

Lemma host_rendered_iff type current en :
  "host" ∈ rendered_fields type current en ↔
  en = true ∧ type ∈ ["vmess"; "vless"; "trojan"]
  ∧ ∃ m, m ∈ ["websocket"; "http2"; "httpupgrade"]
         ∧ selected_transport current = JStr m.
Proof.
  rendered_bool. fold (selected_transport current).
  rewrite !andb_true_iff, type_in_iff, includes_str_iff, negb_true_iff,
    strict_eq_str_false.
  split; [tauto|]. intros (? & ? & m & Hm & Hsel). repeat split; try done.
  - rewrite Hsel. intros [= ->]. by apply (bool_decide_pack _) in Hm.
  - by exists m.
Qed.

Lemma service_name_rendered_iff type current en :
  "service_name" ∈ rendered_fields type current en ↔
  en = true ∧ type ∈ ["vmess"; "vless"; "trojan"]
  ∧ selected_transport current = JStr "grpc".
Proof.
  rendered_bool. fold (selected_transport current).
  rewrite !andb_true_iff, type_in_iff, negb_true_iff, strict_eq_str_false,
    strict_eq_str_iff.
  split; [tauto|]. intros (? & ? & Hsel). repeat split; try done.
  by rewrite Hsel.
Qed.

Lemma path_rendered_iff type current en :
  "path" ∈ rendered_fields type current en ↔
  "host" ∈ rendered_fields type current en.
Proof. rewrite (elem_of_existsb "host"). rendered_bool. done. Qed.

(** X1: the host and path fields are rendered exactly when the kind is
    enabled, is vmess, vless or trojan, and the shown transport is websocket,
    http2 or httpupgrade; the service-name field exactly when the shown
    transport is grpc.  Host and service name are never rendered together. *)
Theorem transport_fields_rendered type current en :
  ("host" ∈ rendered_fields type current en ↔
     en = true ∧ type ∈ ["vmess"; "vless"; "trojan"]
     ∧ ∃ m, m ∈ ["websocket"; "http2"; "httpupgrade"]
            ∧ selected_transport current = JStr m)
  ∧ ("path" ∈ rendered_fields type current en ↔
     "host" ∈ rendered_fields type current en)
  ∧ ("service_name" ∈ rendered_fields type current en ↔
     en = true ∧ type ∈ ["vmess"; "vless"; "trojan"]
     ∧ selected_transport current = JStr "grpc")
  ∧ ¬ ("host" ∈ rendered_fields type current en
       ∧ "service_name" ∈ rendered_fields type current en).
Proof.
  split; [apply host_rendered_iff|]. split; [|split].
  - apply path_rendered_iff.
  - apply service_name_rendered_iff.
  - rewrite host_rendered_iff, service_name_rendered_iff.
    intros [(_ & _ & m & Hm & Hsel) (_ & _ & Hgrpc)].
    rewrite Hgrpc in Hsel. injection Hsel as <-.
    by apply (bool_decide_pack _) in Hm.
Qed.

(** X2: when the slot's transport is missing, null or tcp, none of host, path
    and service name is rendered, whatever the kind and whatever the slot
    holds in those properties. *)
Theorem tcp_hides_transport_fields type current en :
  get current "transport" = JUndefined
  ∨ get current "transport" = JNull
  ∨ get current "transport" = JStr "tcp" →
  ("host" ∉ rendered_fields type current en)
  ∧ ("path" ∉ rendered_fields type current en)
  ∧ ("service_name" ∉ rendered_fields type current en).
Proof.
  intros Htcp.
  assert (Hsel : selected_transport current = JStr "tcp").
  { unfold selected_transport. by destruct Htcp as [-> | [-> | ->]]. }
  rewrite path_rendered_iff, host_rendered_iff, service_name_rendered_iff, Hsel.
  repeat split.
  - intros (_ & _ & m & Hm & [= <-]). by apply (bool_decide_pack _) in Hm.
  - intros (_ & _ & m & Hm & [= <-]). by apply (bool_decide_pack _) in Hm.
  - by intros (_ & _ & [=]).
Qed.

(** X3: each of the five reality fields is rendered exactly when the kind is
    enabled, is vless, and the slot's security is reality. *)
Theorem reality_fields_rendered type current en field :
  field ∈ ["reality_server_addr"; "reality_server_port"; "reality_private_key";
           "reality_public_key"; "reality_short_id"] →
  field ∈ rendered_fields type current en ↔
  en = true ∧ type = "vless" ∧ get current "security" = JStr "reality".
Proof.
  intros Hfield.
  assert (Hshape :
    en && (existsb (λ t, String.eqb t type)
             ["vmess"; "vless"; "trojan"; "anytls"; "tuic"; "hysteria2"]
           && ((existsb (λ t, String.eqb t type) ["anytls"; "tuic"; "hysteria2"]
                || existsb (λ t, String.eqb t type) ["vmess"; "vless"; "trojan"]
                   && negb (strict_eq_str (get current "security") "none"))
               && (String.eqb type "vless"
                   && strict_eq_str (get current "security") "reality"))) = true
    ↔ en = true ∧ type = "vless" ∧ get current "security" = JStr "reality").
  { rewrite !andb_true_iff, orb_true_iff, !andb_true_iff, !type_in_iff,
      negb_true_iff, strict_eq_str_false, strict_eq_str_iff, String.eqb_eq.
    split; [tauto|]. intros (-> & -> & Hsec). rewrite Hsec.
    repeat split; try done.
    - apply (bool_decide_unpack _). by vm_compute.
    - right. split; [|done]. apply (bool_decide_unpack _). by vm_compute. }
  rewrite <- Hshape. clear Hshape.
  repeat (apply elem_of_cons in Hfield as [-> | Hfield]);
    [..| by apply elem_of_nil in Hfield]; by rendered_bool.
Qed.

(** X4: the server-key field is rendered exactly when shadowsocks is enabled
    and the slot's cipher is one of the three 2022-blake3 ciphers. *)
Theorem server_key_rendered type current en :
  "server_key" ∈ rendered_fields type current en ↔
  en = true ∧ type = "shadowsocks"
  ∧ ∃ c, c ∈ ["2022-blake3-aes-128-gcm"; "2022-blake3-aes-256-gcm";
              "2022-blake3-chacha20-poly1305"]
         ∧ get current "cipher" = JStr c.
Proof.
  rendered_bool. rewrite !andb_true_iff, String.eqb_eq.
  assert (Hcipher :
    is_blake3_cipher (get current "cipher") = true ↔
    ∃ c, c ∈ ["2022-blake3-aes-128-gcm"; "2022-blake3-aes-256-gcm";
              "2022-blake3-chacha20-poly1305"]
         ∧ get current "cipher" = JStr c).
  { unfold is_blake3_cipher, cipher_text, js_or.
    destruct (get current "cipher") as [| |[]|[| | |q]|s]; simpl;
      try (split; [discriminate | by intros (c & _ & [=])]).
    - destruct (negb (Qeq_bool q 0)); simpl;
        (split; [discriminate | by intros (c & _ & [=])]).
    - assert (Hs : (if negb (String.eqb s "") then JStr s else JStr "") = JStr s).
      { by destruct (String.eqb_spec s "") as [->|]. }
      rewrite Hs. split.
      + intros Hin. exists s. split; [|done]. apply elem_of_existsb. exact Hin.
      + intros (c & Hc & [= ->]). apply elem_of_existsb in Hc. exact Hc. }
  rewrite Hcipher. tauto.
Qed.

(** X5: the TLS fields (sni, fingerprint, allow-insecure) are rendered
    exactly when the kind is enabled and either is anytls, tuic or hysteria2,
    or is vmess, vless or trojan with a security other than the string none.
    The test reads the slot, not the selector: when the slot of a vmess or
    vless has no security property, the selector shows none and the TLS
    fields are rendered all the same. *)
Theorem tls_fields_rendered type current en :
  (∀ field, field ∈ ["sni"; "fingerprint"; "allow_insecure"] →
     field ∈ rendered_fields type current en ↔
     en = true
     ∧ (type ∈ ["anytls"; "tuic"; "hysteria2"]
        ∨ (type ∈ ["vmess"; "vless"; "trojan"]
           ∧ get current "security" ≠ JStr "none")))
  ∧ (en = true → type ∈ ["vmess"; "vless"] →
     current !! "security" = None →
     selected_security type current = JStr "none"
     ∧ "sni" ∈ rendered_fields type current en).
Proof.
  assert (Hall : ∀ field, field ∈ ["sni"; "fingerprint"; "allow_insecure"] →
     field ∈ rendered_fields type current en ↔
     en = true
     ∧ (type ∈ ["anytls"; "tuic"; "hysteria2"]
        ∨ (type ∈ ["vmess"; "vless"; "trojan"]
           ∧ get current "security" ≠ JStr "none"))).
  { intros field Hfield.
    assert (Hshape :
      en && (existsb (λ t, String.eqb t type)
               ["vmess"; "vless"; "trojan"; "anytls"; "tuic"; "hysteria2"]
             && (existsb (λ t, String.eqb t type) ["anytls"; "tuic"; "hysteria2"]
                 || existsb (λ t, String.eqb t type) ["vmess"; "vless"; "trojan"]
                    && negb (strict_eq_str (get current "security") "none")))
      = true
      ↔ en = true
        ∧ (type ∈ ["anytls"; "tuic"; "hysteria2"]
           ∨ (type ∈ ["vmess"; "vless"; "trojan"]
              ∧ get current "security" ≠ JStr "none"))).
    { rewrite !andb_true_iff, orb_true_iff, !andb_true_iff, !type_in_iff,
        negb_true_iff, strict_eq_str_false.
      split; [tauto|]. intros (? & Hty). repeat split; try done.
      rewrite !elem_of_cons in Hty |- *. tauto. }
    rewrite <- Hshape. clear Hshape.
    repeat (apply elem_of_cons in Hfield as [-> | Hfield]);
      [..| by apply elem_of_nil in Hfield]; by rendered_bool. }
  split; [done|]. intros Hen Hty Hnone.
  assert (Hsec : get current "security" = JUndefined).
  { unfold get. by rewrite Hnone. }
  split.
  - unfold selected_security. rewrite Hsec. simpl.
    rewrite !elem_of_cons in Hty. by destruct Hty as [-> | [-> | ?%elem_of_nil]].
  - apply Hall; [by left|]. split; [done|]. right. rewrite Hsec. split; [|done].
    rewrite !elem_of_cons in Hty. rewrite !elem_of_cons.
    destruct Hty as [-> | [-> | []%elem_of_nil]]; auto.
Qed.

Lemma rendered_fields_no_type type current en :
  "type" ∉ rendered_fields type current en.
Proof. rendered_bool. discriminate. Qed.

Ltac split_kind type k :=
  destruct (String.eqb_spec type k) as [->|?];
  [| destruct (String.eqb_spec k type) as [?|?]; [congruence|] ].

(** X6: whatever the kind and the slot, no field is rendered twice, the
    [type] property has no field (the operator cannot edit it), and the port
    field is there exactly when the kind is enabled. *)
Theorem rendered_fields_distinct type current en :
  NoDup (rendered_fields type current en)
  ∧ ("type" ∉ rendered_fields type current en)
  ∧ ("port" ∈ rendered_fields type current en ↔ en = true).
Proof.
  split; [|split].
  - unfold rendered_fields.
    generalize (js_nullish (get current "transport") (JStr "tcp"))
      (get current "security") (is_blake3_cipher (get current "cipher")).
    intros tr sec bk.
    destruct en; [|constructor].
    generalize (strict_eq_str tr "tcp")
      (includes_str ["websocket"; "http2"; "httpupgrade"] tr)
      (strict_eq_str tr "grpc") (strict_eq_str sec "none")
      (strict_eq_str sec "reality").
    intros b1 b2 b3 b4 b5. cbn [existsb].
    split_kind type "shadowsocks"; [|split_kind type "vless";
      [|split_kind type "hysteria2"; [|split_kind type "tuic";
        [|split_kind type "vmess"; [|split_kind type "trojan";
          [|split_kind type "anytls"]]]]]];
      cbn [String.eqb Ascii.eqb Bool.eqb when app orb andb];
      repeat match goal with
             | |- context [when ?b _] => is_var b; destruct b
             | |- context [when (negb ?b) _] => is_var b; destruct b
             | |- context [when (negb ?b && _) _] => is_var b; destruct b
             | |- context [when (_ && ?b) _] => is_var b; destruct b
             end;
      cbn [when app negb andb orb];
      apply (bool_decide_unpack _); vm_compute; exact I.
  - rendered_bool. discriminate.
  - rendered_bool. done.
Qed.

(** *** The slot a tab edits *)

Lemma findIndex_found {A : Type} (f : A → bool) (l : list A) x :
  x ∈ l → f x = true →
  ∃ i y, findIndex f l = Z.of_nat i ∧ l !! i = Some y ∧ f y = true
         ∧ ∀ j z, j < i → l !! j = Some z → f z = false.
Proof.
  induction l as [|a l IH]; intros Hin Hfx; [by apply elem_of_nil in Hin|].
  simpl. destruct (f a) eqn:Hfa.
  - exists 0, a. repeat split; try done. intros j z Hj. lia.
  - apply elem_of_cons in Hin as [-> | Hin]; [congruence|].
    destruct (IH Hin Hfx) as (i & y & Hi & Hy & Hfy & Hmin).
    exists (S i), y. rewrite Hi.
    destruct (Z.ltb_spec (Z.of_nat i) 0); [lia|].
    repeat split; try done; [lia|].
    intros [|j] z Hj Hz; simpl in Hz; [congruence|]. apply (Hmin j); [lia|done].
Qed.

Lemma findIndex_missing {A : Type} (f : A → bool) (l : list A) :
  (∀ x, x ∈ l → f x = false) → findIndex f l = (-1)%Z.
Proof.
  induction l as [|a l IH]; intros Hall; [done|]. simpl.
  rewrite (Hall a) by left. rewrite IH; [done|].
  intros x Hx. apply Hall. by right.
Qed.

Lemma tab_index_first type :
  type ∈ PROTOCOLS →
  PROTOCOLS !! tab_index type = Some type
  ∧ ∀ j, j < tab_index type → PROTOCOLS !! j ≠ Some type.
Proof.
  intros Hin. unfold tab_index.
  destruct (findIndex_found (λ t, String.eqb t type) PROTOCOLS type Hin
              (String.eqb_refl type)) as (i & y & -> & Hy & ->%String.eqb_eq & Hmin).
  replace (Z.to_nat (Z.max 0 (Z.of_nat i))) with i by lia.
  split; [done|]. intros j Hj Hjk. specialize (Hmin j type Hj Hjk).
  by rewrite String.eqb_refl in Hmin.
Qed.

(** X7: the tab of a catalog kind edits the slot at the first catalog position
    of that kind; when the catalog has no repeated kind this is the kind's own
    position, the one [handleSubmit] reads the kind from.  For a string that is
    not a catalog kind the index falls back to 0. *)
Theorem tab_index_is_catalog_position :
  (∀ type, type ∈ PROTOCOLS →
     PROTOCOLS !! tab_index type = Some type
     ∧ ∀ j, j < tab_index type → PROTOCOLS !! j ≠ Some type)
  ∧ (∀ j k, NoDup PROTOCOLS → PROTOCOLS !! j = Some k → tab_index k = j)
  ∧ (∀ type, type ∉ PROTOCOLS → tab_index type = 0).
Proof.
  split; [apply tab_index_first|]. split.
  - intros j k Hnd Hj.
    destruct (tab_index_first k) as [Hk _]; [by eapply list_elem_of_lookup_2|].
    by eapply NoDup_lookup.
  - intros type Hout. unfold tab_index. rewrite findIndex_missing; [done|].
    intros x Hx. apply String.eqb_neq. by intros ->.
Qed.


(** *** Invariants of the reachable states *)

Lemma Forall2_List_map {A B : Type} (P : A → B → Prop) (f : A → B) (l : list A) :
  (∀ x, x ∈ l → P x (f x)) → Forall2 P l (List.map f l).
Proof.
  induction l as [|x l IH]; intros Hall; simpl; constructor.
  - apply Hall. by left.
  - apply IH. intros y Hy. apply Hall. by right.
Qed.

Lemma slots_tagged_new :
  factory_tags_kinds → slots_tagged (List.map getProtocolDefaultConfig PROTOCOLS).
Proof. intros Hdef. by apply Forall2_List_map. Qed.

Lemma slots_tagged_load iv :
  factory_tags_kinds → slots_tagged (List.map (slot_on_load iv) PROTOCOLS).
Proof.
  intros Hdef. apply Forall2_List_map. intros k Hk. unfold slot_on_load.
  destruct (find_protocol iv k) as [p|] eqn:Hp.
  - by apply find_protocol_Some in Hp as [_ ?].
  - by apply Hdef.
Qed.

(** What [handleSubmit] can do to the form and the open flag: nothing, or reset
    to the defaults and close; it never writes the enabled list. *)
Lemma handleSubmit_form_cases onSubmit v st :
  protocolsEnabled (handleSubmit onSubmit v st) = protocolsEnabled st
  ∧ ((form (handleSubmit onSubmit v st) = form st
      ∧ open (handleSubmit onSubmit v st) = open st)
     ∨ (values (form (handleSubmit onSubmit v st)) = defaultValues (form st)
        ∧ defaultValues (form (handleSubmit onSubmit v st)) = defaultValues (form st)
        ∧ open (handleSubmit onSubmit v st) = false)).
Proof.
  unfold handleSubmit.
  destruct (Nat.eqb _ 0); [by split; [|left]|].
  destruct (onSubmit _) as [[]|]; simpl; split; try done; auto.
Qed.

Lemma confirm_onClick_form_cases resolver onSubmit st :
  protocolsEnabled (confirm_onClick resolver onSubmit st) = protocolsEnabled st
  ∧ ((form (confirm_onClick resolver onSubmit st) = form st
      ∧ open (confirm_onClick resolver onSubmit st) = open st)
     ∨ (values (form (confirm_onClick resolver onSubmit st)) = defaultValues (form st)
        ∧ defaultValues (form (confirm_onClick resolver onSubmit st))
          = defaultValues (form st)
        ∧ open (confirm_onClick resolver onSubmit st) = false)).
Proof.
  unfold confirm_onClick. destruct (resolver _) as [v [|[key message] errors]].
  - apply handleSubmit_form_cases.
  - unfold onInvalid. destruct (negb _); split; auto.
Qed.

Lemma reachable_slots_tagged iv resolver onSubmit st :
  factory_tags_kinds →
  reachable iv resolver onSubmit st →
  open st = true ∨ is_Some iv →
  slots_tagged (protocols (values (form st)))
  ∧ slots_tagged (protocols (defaultValues (form st))).
Proof.
  intros Hdef Hreach. induction Hreach as [|st e st' Hreach IH Hstep].
  - intros [Hopen | [iv' ->]]; [by destruct iv|]. simpl.
    split; by apply slots_tagged_load.
  - destruct e as [| |type|type field v|f v|]; simpl in Hstep.
    + injection Hstep as <-. intros _. destruct iv as [iv'|]; simpl.
      * apply IH. right. by eexists.
      * split; by apply slots_tagged_new.
    + injection Hstep as <-. simpl. intros [? | Hiv]; [done|]. apply IH. by right.
    + destruct (bool_decide (type ∈ PROTOCOLS)); [|done].
      injection Hstep as <-. by destruct (negb (isEnabled st type)).
    + destruct (bool_decide (type ∈ PROTOCOLS)); [|done]. simpl in Hstep.
      destruct (bool_decide _) eqn:Hfield; [|done].
      apply bool_decide_eq_true in Hfield. unfold field_onChange in Hstep.
      destruct (protocols (values (form st)) !! tab_index type) as [p|] eqn:Hp;
        [|done].
      injection Hstep as <-. simpl. intros Hpre.
      destruct (IH Hpre) as [Hvalues Hdefaults]. split; [|done].
      unfold slots_tagged in *.
      destruct (Forall2_lookup_r _ _ _ _ _ Hvalues Hp) as (k & Hk & Hty).
      rewrite <- (list_insert_id PROTOCOLS (tab_index type) k Hk).
      apply Forall2_insert; [done|].
      unfold get. rewrite lookup_insert_ne; [done|].
      intros ->. by apply rendered_fields_no_type in Hfield.
    + injection Hstep as <-. apply IH.
    + injection Hstep as <-.
      destruct (confirm_onClick_form_cases resolver onSubmit st)
        as [_ [[-> ->] | (-> & -> & ->)]]; [apply IH|].
      intros [? | Hiv]; [done|]. destruct IH as [_ ?]; [by right | done].
Qed.

(** X9: in every reachable state in which the sheet is open (and in every
    reachable state of an editor mounted on a loaded node), the protocols array
    has exactly one slot per catalog kind, the slot at a kind's position
    carries that kind in its [type], and every tab finds its slot, so a field
    edit never falls outside the array.  The default factory is assumed to tag
    its configs with their kind. *)
Theorem open_sheet_slots_aligned iv resolver onSubmit st :
  factory_tags_kinds →
  reachable iv resolver onSubmit st →
  open st = true ∨ is_Some iv →
  length (protocols (values (form st))) = length PROTOCOLS
  ∧ (∀ index k, PROTOCOLS !! index = Some k →
       ∃ p, protocols (values (form st)) !! index = Some p
            ∧ get p "type" = JStr k)
  ∧ (∀ type field v, type ∈ PROTOCOLS →
       is_Some (field_onChange (tab_index type) field v st)).
Proof.
  intros Hdef Hreach Hpre.
  destruct (reachable_slots_tagged iv resolver onSubmit st Hdef Hreach Hpre)
    as [Htag _].
  split; [symmetry; by eapply Forall2_length|]. split.
  - intros index k Hk. exact (Forall2_lookup_l _ _ _ _ _ Htag Hk).
  - intros type field v Hin. unfold field_onChange.
    destruct (tab_index_first type Hin) as [Hk _].
    destruct (Forall2_lookup_l _ _ _ _ _ Htag Hk) as (p & -> & _). by eexists.
Qed.

(** X10: in those states every entry [handleSubmit] would keep from the form's
    values carries, in its own [type], an enabled catalog kind, and a port
    that is a number in range: on the states the operator can reach, judging
    by position and judging by [type] agree. *)
Theorem kept_entries_carry_enabled_kinds iv resolver onSubmit st e :
  factory_tags_kinds →
  reachable iv resolver onSubmit st →
  open st = true ∨ is_Some iv →
  e ∈ filtered (protocolsEnabled st) (values (form st)) →
  ∃ k n, get e "type" = JStr k ∧ k ∈ protocolsEnabled st ∧ k ∈ PROTOCOLS
         ∧ get e "port" = JNum n ∧ port_in_range n = true.
Proof.
  intros Hdef Hreach Hpre He.
  destruct (reachable_slots_tagged iv resolver onSubmit st Hdef Hreach Hpre)
    as [Htag _].
  unfold filtered in He. apply list_elem_of_In, in_map_iff in He.
  destruct He as (p & <- & Hp). apply list_elem_of_In, elem_of_filteri in Hp.
  destruct Hp as (index & Hidx & Hkeep).
  apply keep_true in Hkeep as (k & Hk & _ & Hen & Hrange).
  exists k, (Number (get p "port")). repeat split; try done.
  - rewrite normalize_port_type. by eapply (Forall2_lookup_lr _ _ _ _ _ _ Htag).
  - by eapply list_elem_of_lookup_2.
  - unfold normalize_port, get. by rewrite lookup_insert_eq.
Qed.

(** X11: when the catalog has no repeated kind, the enabled list of every
    reachable state has no repeated kind and holds catalog kinds only. *)
Theorem enabled_list_distinct_catalog_kinds iv resolver onSubmit st :
  NoDup PROTOCOLS →
  reachable iv resolver onSubmit st →
  NoDup (protocolsEnabled st) ∧ ∀ k, k ∈ protocolsEnabled st → k ∈ PROTOCOLS.
Proof.
  intros Hnd Hreach. induction Hreach as [|st e st' Hreach IH Hstep].
  - destruct iv as [iv'|]; simpl.
    + split.
      * by eapply sublist_NoDup, sublist_List_filter.
      * by intros k [? _]%elem_of_List_filter.
    + split; [constructor | by intros k ?%elem_of_nil].
  - destruct IH as [IHnd IHsub].
    destruct e as [| |type|type field v|f v|]; simpl in Hstep.
    + injection Hstep as <-. destruct iv as [iv'|]; simpl; [done|].
      split; [constructor | by intros k ?%elem_of_nil].
    + by injection Hstep as <-.
    + destruct (bool_decide (type ∈ PROTOCOLS)) eqn:Hcat; [|done].
      apply bool_decide_eq_true in Hcat. injection Hstep as <-.
      unfold isEnabled. destruct (bool_decide (type ∈ protocolsEnabled st)) eqn:Hen;
        simpl.
      * split.
        -- by eapply sublist_NoDup, sublist_List_filter.
        -- intros k [? _]%elem_of_switch_off. auto.
      * apply bool_decide_eq_false in Hen. split.
        -- apply NoDup_app. split; [done|]. split; [|apply NoDup_singleton].
           intros k Hk ->%list_elem_of_singleton. done.
        -- intros k [?| ->%list_elem_of_singleton]%elem_of_app; auto.
    + destruct (bool_decide (type ∈ PROTOCOLS) && _); [|done].
      unfold field_onChange in Hstep.
      destruct (protocols (values (form st)) !! tab_index type); [|done].
      by injection Hstep as <-.
    + by injection Hstep as <-.
    + injection Hstep as <-.
      by destruct (confirm_onClick_form_cases resolver onSubmit st) as [-> _].
Qed.

(** *** The confirm button, closing and reopening *)

(** X12: a confirm click whose validation reports an error never reaches
    [onSubmit]: nothing is submitted and the form, the open flag and the
    enabled list stay; the only effect is one toast with the message of the
    first error (the text [undefined] when that error has no message), and
    not even that when the first key is the empty string.  With no error,
    [handleSubmit] runs on the values the resolver returned. *)
Theorem confirm_with_errors_only_toasts resolver onSubmit st :
  (∀ v key message errors,
     resolver (values (form st)) = (v, (key, message) :: errors) →
     let st' := confirm_onClick resolver onSubmit st in
     submitted st' = submitted st
     ∧ form st' = form st
     ∧ open st' = open st
     ∧ protocolsEnabled st' = protocolsEnabled st
     ∧ toasts st' = toasts st ++ (if String.eqb key "" then []
                                  else [default "undefined" message]))
  ∧ (∀ v, resolver (values (form st)) = (v, []) →
     confirm_onClick resolver onSubmit st = handleSubmit onSubmit v st).
Proof.
  split.
  - intros v key message errors Hres st'. subst st'.
    unfold confirm_onClick. rewrite Hres. unfold onInvalid.
    destruct (String.eqb key ""); simpl; repeat split; try done.
    by rewrite app_nil_r.
  - intros v Hres. unfold confirm_onClick. by rewrite Hres.
Qed.

(** X13: closing the sheet and opening it again.  On a loaded node the
    in-progress values and the enabled list survive, as they were when the
    sheet was closed.  On a new node they do not: whatever was typed or
    enabled, the sheet reopens on the blank values with the default config of
    every kind and nothing enabled. *)
Theorem reopen_after_close st :
  (∀ iv,
     let st' := trigger_onClick (Some iv) (setOpen false st) in
     form st' = form st
     ∧ protocolsEnabled st' = protocolsEnabled st
     ∧ open st' = true)
  ∧ (let st' := trigger_onClick None (setOpen false st) in
     values (form st')
     = with_blank_defaults None (List.map getProtocolDefaultConfig PROTOCOLS)
     ∧ protocolsEnabled st' = []
     ∧ open st' = true
     ∧ filtered (protocolsEnabled st') (values (form st')) = []).
Proof.
  split; [done|]. simpl. repeat split.
  apply filtered_empty_iff. intros index p _.
  destruct (keep [] p index) eqn:Hk; [|done].
  by apply keep_true in Hk as (k & _ & _ & ?%elem_of_nil & _).
Qed.

(** *** The log tables *)

(** X14: the [request] callback of the log tables.  A response without a list
    gives the empty list.  The total is the reported total when that is a
    truthy number; when the reported total is missing, [null], [0] or [NaN],
    it is the length of the returned list.  So with a reported total that is a
    number or missing, the total handed to the table is never [NaN]. *)
Theorem request_total_falls_back_to_length {A : Type}
    (data : option (option (log_page A))) :
  (mjoin data ≫= log_list A = None → fst (request_result data) = [])
  ∧ (∀ page n,
       mjoin data = Some page → log_total A page = JNum n →
       ToBoolean (JNum n) = true → snd (request_result data) = n)
  ∧ (ToBoolean (default JUndefined (log_total A <$> mjoin data)) = false →
     snd (request_result data)
     = Fin (inject_Z (Z.of_nat (length (fst (request_result data))))))
  ∧ ((∀ page, mjoin data = Some page →
        log_total A page = JUndefined ∨ log_total A page = JNull
        ∨ ∃ n, log_total A page = JNum n) →
     snd (request_result data) ≠ NaN).
Proof.
  unfold request_result. cbn [fst snd]. repeat split.
  - by intros ->.
  - intros page n -> Hn Ht. cbn [fmap option_fmap option_map default].
    unfold js_or, id. by rewrite Hn, Ht.
  - intros Hfalsy. unfold js_or. by rewrite Hfalsy.
  - intros Hshape. unfold js_or.
    destruct (mjoin data) as [page|]; simpl; [|done].
    destruct (Hshape page eq_refl) as [-> | [-> | [n ->]]]; simpl; try done.
    destruct n as [| | |q]; simpl; try done. by destruct (negb (Qeq_bool q 0)).
Qed.

(** *** Tab labels *)

Lemma toUpperCase_ascii_fixed c c' :
  toUpperCase_ascii c = Some c' → toUpperCase_ascii c' = Some c'.
Proof.
  unfold toUpperCase_ascii.
  destruct (Nat.ltb_spec (Ascii.nat_of_ascii c) 128) as [Hlt|]; [|done].
  destruct ((97 <=? Ascii.nat_of_ascii c)%nat && (Ascii.nat_of_ascii c <=? 122)%nat)
    eqn:Hrange; intros [= <-].
  - apply andb_true_iff in Hrange as [Hlo%Nat.leb_le Hhi%Nat.leb_le].
    rewrite Ascii.nat_ascii_embedding by lia.
    destruct (Nat.ltb_spec (Ascii.nat_of_ascii c - 32) 128); [|lia].
    destruct (Nat.leb_spec 97 (Ascii.nat_of_ascii c - 32)); [lia|]. done.
  - destruct (Nat.ltb_spec (Ascii.nat_of_ascii c) 128); [|lia]. by rewrite Hrange.
Qed.

(** X15: [titleCase] on a string that is empty or starts with an ASCII
    character: the result has the same length and the same characters after
    the first, and capitalising it again changes nothing. *)
Theorem titleCase_idempotent s t :
  titleCase s = Some t →
  titleCase t = Some t
  ∧ String.length t = String.length s
  ∧ (∀ c rest, s = String c rest → ∃ c', t = String c' rest).
Proof.
  destruct s as [|c rest]; simpl.
  - intros [= <-]. repeat split. by intros c rest.
  - destruct (toUpperCase_ascii c) as [c'|] eqn:Hc; simpl; [|done].
    intros [= <-]. simpl. rewrite (toUpperCase_ascii_fixed c c' Hc). simpl.
    repeat split. intros c0 rest0 [= _ <-]. by exists c'.
Qed.

End InterfaceProperties.

(** * Examples on the catalog and default factory of the spec *)

Section Examples.
#[local] Existing Instance digits_runtime.
#[local] Existing Instance spec_schema.

Lemma handleSubmit_keeps_enabled_in_range_witness :
  filtered ["vless"; "shadowsocks"]
    (blank_values [ss_text_port; vless_70000; vless_443])
  = [ <["port" := JNum (Fin 8388)]> ss_text_port ].
Proof.
  apply (proj2 handleSubmit_keeps_enabled_in_range _ _ 0%nat).
  - reflexivity.
  - apply (bool_decide_unpack _). vm_compute. exact I.
  - reflexivity.
  - reflexivity.
  - intros [|[|[|j]]] q k Hj Hq Hk; [done| | |done].
    + right. injection Hq as <-. reflexivity.
    + left. injection Hk as <-. apply (bool_decide_unpack _). vm_compute. exact I.
Defined.

(** C1 (as stated) fails: with shadowsocks enabled and port 80.5 in its slot,
    the entry is kept although 80.5 is not an integer. *)
Lemma fractional_port_is_kept :
  let p : obj := {[ "type" := JStr "shadowsocks"; "port" := JNum (Fin (161 # 2)) ]} in
  filtered ["shadowsocks"] (blank_values [p]) = [p]
  ∧ spec_port_valid (Number (get p "port")) = false.
Proof. split; vm_compute; reflexivity. Qed.

Lemma handleSubmit_passes_fields_through_witness :
  ∃ index p,
    protocols (blank_values [ss_slot; vless_stale_slot]) !! index = Some p
    ∧ keep ["vless"] p index = true
    ∧ normalize_port vless_stale_slot !! "port"
      = Some (JNum (Number (get p "port")))
    ∧ ∀ field, field ≠ "port" →
        normalize_port vless_stale_slot !! field = p !! field.
Proof.
  apply (handleSubmit_passes_fields_through ["vless"]
           (blank_values [ss_slot; vless_stale_slot])).
  apply list_elem_of_In. vm_compute. left. reflexivity.
Defined.

(** C2 (as stated) fails: a vless slot in transport mode [tcp] and security
    mode [none] is submitted with its stale [host], [path] and
    [reality_public_key] still in it. *)
Lemma stale_fields_are_submitted :
  ∃ e, filtered ["vless"] (blank_values [ss_slot; vless_stale_slot]) = [e]
       ∧ get e "transport" = JStr "tcp"
       ∧ get e "host" = JStr "old.example.org"
       ∧ get e "path" = JStr "/ws"
       ∧ get e "security" = JStr "none"
       ∧ get e "reality_public_key" = JStr "old-key".
Proof. exists vless_stale_slot. repeat split; vm_compute; reflexivity. Qed.

Lemma handleSubmit_rejects_empty_witness :
  let st := editing ["vless"] (blank_values [ss_slot; vless_70000]) in
  let st' := handleSubmit (λ _, Resolved true) (values (form st)) st in
  toasts st' = toasts st ++ ["validation_failed"]
  ∧ submitted st' = submitted st
  ∧ (∀ onSubmit', handleSubmit onSubmit' (values (form st)) st = st')
  ∧ form st' = form st
  ∧ open st' = open st
  ∧ protocolsEnabled st' = protocolsEnabled st.
Proof.
  intros st. apply (handleSubmit_rejects_empty (λ _, Resolved true)).
  vm_compute. reflexivity.
Defined.


(** C5: the operator enters ratio 0 (the ratio input allows it: [min={0}]) and
    submits with shadowsocks enabled on port 8388; the submission handed to
    [onSubmit] carries ratio 1, not 0. *)
Lemma zero_ratio_is_committed_as_one :
  let v := {| name := JStr "node"; address := JStr "example.org";
              country := JStr ""; city := JStr "";
              ratio := JNum (Fin 0); protocols := [ss_slot] |} in
  ratio <$> submitted (handleSubmit (λ _, Resolved true) v (editing ["shadowsocks"] v))
  = [JNum (Fin 1)].
Proof. vm_compute. reflexivity. Qed.

Lemma handleSubmit_is_positional_witness :
  keep ["vless"] vless_stale_slot 0 = false
  ∧ filtered ["vless"; "shadowsocks"] (blank_values [ss_slot; vless_stale_slot])
    = filtered ["shadowsocks"; "vless"] (blank_values [ss_slot; vless_stale_slot]).
Proof.
  destruct handleSubmit_is_positional as (_ & _ & Hdrop & Hmem). split.
  - apply (Hdrop ["vless"] vless_stale_slot 0%nat "shadowsocks").
    + reflexivity.
    + apply (bool_decide_unpack _). vm_compute. exact I.
  - apply Hmem. intros k. rewrite !elem_of_cons. tauto.
Defined.

Lemma switch_changes_membership_only_witness :
  let st := editing ["vless"; "shadowsocks"] (blank_values [ss_slot; vless_443]) in
  let off := protocolsEnabled (onCheckedChange "vless" false st) in
  filtered off
    (set_protocols (<[1%nat := vless_stale_slot]> (protocols (values (form st))))
       (values (form st)))
  = filtered off (values (form st)).
Proof.
  intros st.
  apply (proj2 (proj2 switch_changes_membership_only) "vless" st (values (form st))
           1%nat vless_stale_slot).
  reflexivity.
Defined.

Lemma slots_after_initialization_witness :
  protocols (values (form (trigger_onClick None (mount None)))) !! 0%nat
  = Some (getProtocolDefaultConfig "shadowsocks")
  ∧ ∃ s, protocols (values (form (loaded [vless_443]))) !! 1%nat = Some s
         ∧ ((s ∈ loaded_protocols (stored_node [vless_443])
             ∧ get s "type" = JStr "vless")
            ∨ ((∀ q, q ∈ loaded_protocols (stored_node [vless_443]) →
                     get q "type" ≠ JStr "vless")
               ∧ s = getProtocolDefaultConfig "vless")).
Proof.
  destruct slots_after_initialization as [Hnew Hload]. split.
  - apply (proj2 (Hnew (mount None)) 0%nat "shadowsocks"). reflexivity.
  - apply (proj1 (proj2 (Hload (stored_node [vless_443])
                           (mount (Some (stored_node [vless_443])))))
             1%nat "vless").
    reflexivity.
Defined.

(** C8 (as stated) fails: a stored vless config that has only a type and a
    port sits in the vless slot as it is after the load, without the
    [security], [flow] and [fingerprint] the default factory gives a vless
    config: the slot is not fully populated. *)
Lemma loaded_slot_is_not_backfilled :
  protocols (values (form (loaded [vless_443]))) !! 1%nat = Some vless_443
  ∧ vless_443 !! "security" = None
  ∧ vless_443 !! "flow" = None
  ∧ vless_443 !! "fingerprint" = None
  ∧ getProtocolDefaultConfig "vless" !! "security" = Some (JStr "none")
  ∧ getProtocolDefaultConfig "vless" !! "flow" = Some (JStr "none")
  ∧ getProtocolDefaultConfig "vless" !! "fingerprint" = Some (JStr "chrome").
Proof. repeat split; vm_compute; reflexivity. Qed.

Lemma load_enables_positive_ports_witness :
  let st' := loaded [vless_70000] in
  ("vless" ∈ protocolsEnabled st'
   ∧ protocols (values (form st')) !! 1%nat = Some vless_70000
   ∧ keep (protocolsEnabled st') vless_70000 1 = false)
  ∧ toasts (handleSubmit (λ _, Resolved true) (values (form st')) st')
    = ["validation_failed"].
Proof.
  split.
  - apply (proj2 (proj2 load_enables_positive_ports) (stored_node [vless_70000])
             (mount (Some (stored_node [vless_70000]))) 1%nat "vless" vless_70000).
    + reflexivity.
    + reflexivity.
    + reflexivity.
  - vm_compute. reflexivity.
Defined.

Lemma load_then_submit_round_trip_witness :
  let st' := loaded [vless_443; ss_text_port; trojan_70000] in
  let kept := filtered (protocolsEnabled st') (values (form st')) in
  kept ≡ₚ normalize_port
            <$> List.filter has_valid_port
                  (loaded_protocols
                     (stored_node [vless_443; ss_text_port; trojan_70000]))
  ∧ kept = [normalize_port ss_text_port; vless_443].
Proof.
  split; [|vm_compute; reflexivity].
  refine (proj1 (load_then_submit_round_trip
                   (stored_node [vless_443; ss_text_port; trojan_70000])
                   (mount (Some (stored_node [vless_443; ss_text_port; trojan_70000])))
                   (λ _, Resolved true) _ _ _ _)).
  - apply (bool_decide_unpack _). vm_compute. exact I.
  - apply (bool_decide_unpack _). vm_compute. exact I.
  - apply (bool_decide_unpack _). vm_compute. exact I.
  - intros p Hp. apply list_elem_of_In in Hp.
    destruct Hp as [<- | [<- | [<- | []]]].
    + exists "vless". split; [|reflexivity].
      apply (bool_decide_unpack _). vm_compute. exact I.
    + exists "shadowsocks". split; [|reflexivity].
      apply (bool_decide_unpack _). vm_compute. exact I.
    + exists "trojan". split; [|reflexivity].
      apply (bool_decide_unpack _). vm_compute. exact I.
Defined.

End Examples.

(** * Examples for the rest of the component *)

Section InterfaceExamples.
#[local] Existing Instance digits_runtime.
#[local] Existing Instance spec_schema.

Lemma spec_factory_tags_kinds : factory_tags_kinds.
Proof.
  intros k Hk. apply list_elem_of_In in Hk. simpl in Hk.
  destruct Hk as [<- | [<- | [<- | [<- | [<- | [<- | [<- | []]]]]]]];
    vm_compute; reflexivity.
Qed.

Lemma transport_fields_rendered_witness :
  "host" ∈ rendered_fields "vless"
             ({[ "transport" := JStr "websocket" ]} : obj) true.
Proof.
  apply (proj1 (transport_fields_rendered "vless" _ true)).
  split; [reflexivity|]. split.
  - apply (bool_decide_unpack _). vm_compute. exact I.
  - exists "websocket". split; [|reflexivity].
    apply (bool_decide_unpack _). vm_compute. exact I.
Defined.

Lemma tcp_hides_transport_fields_witness :
  ("host" ∉ rendered_fields "vless" vless_stale_slot true)
  ∧ ("path" ∉ rendered_fields "vless" vless_stale_slot true)
  ∧ ("service_name" ∉ rendered_fields "vless" vless_stale_slot true).
Proof.
  apply tcp_hides_transport_fields. right. right. vm_compute. reflexivity.
Defined.

Lemma reality_fields_rendered_witness :
  "reality_public_key"
  ∈ rendered_fields "vless" ({[ "security" := JStr "reality" ]} : obj) true.
Proof.
  apply reality_fields_rendered.
  - apply (bool_decide_unpack _). vm_compute. exact I.
  - repeat split; reflexivity.
Defined.

Lemma server_key_rendered_witness :
  "server_key"
  ∈ rendered_fields "shadowsocks"
      ({[ "cipher" := JStr "2022-blake3-aes-128-gcm" ]} : obj) true.
Proof.
  apply server_key_rendered. split; [reflexivity|]. split; [reflexivity|].
  exists "2022-blake3-aes-128-gcm". split; [|reflexivity].
  apply (bool_decide_unpack _). vm_compute. exact I.
Defined.

Lemma tls_fields_rendered_witness :
  selected_security "vmess" vless_443 = JStr "none"
  ∧ "sni" ∈ rendered_fields "vmess" vless_443 true.
Proof.
  apply (proj2 (tls_fields_rendered "vmess" vless_443 true)).
  - reflexivity.
  - apply (bool_decide_unpack _). vm_compute. exact I.
  - vm_compute. reflexivity.
Defined.

Lemma rendered_fields_distinct_witness :
  "port" ∈ rendered_fields "tuic" vless_443 true.
Proof.
  apply (proj2 (proj2 (rendered_fields_distinct "tuic" vless_443 true))).
  reflexivity.
Defined.

Lemma tab_index_is_catalog_position_witness : tab_index "trojan" = 3.
Proof.
  apply (proj1 (proj2 tab_index_is_catalog_position)).
  - apply (bool_decide_unpack _). vm_compute. exact I.
  - reflexivity.
Defined.


Lemma open_sheet_slots_aligned_witness :
  length (protocols (values (form (trigger_onClick None (mount None)))))
  = length PROTOCOLS.
Proof.
  refine (proj1 (open_sheet_slots_aligned None (λ v, (v, []))
                   (λ _, Resolved true) _ spec_factory_tags_kinds _ _)).
  - apply (reachable_step _ _ _ (mount None) ClickTrigger).
    + apply (reachable_mount None).
    + reflexivity.
  - left. reflexivity.
Defined.

Lemma kept_entries_carry_enabled_kinds_witness :
  ∃ k n, get vless_443 "type" = JStr k
         ∧ k ∈ protocolsEnabled (loaded [vless_443])
         ∧ k ∈ PROTOCOLS
         ∧ get vless_443 "port" = JNum n ∧ port_in_range n = true.
Proof.
  apply (kept_entries_carry_enabled_kinds (Some (stored_node [vless_443]))
           (λ v, (v, [])) (λ _, Resolved true) (loaded [vless_443])).
  - apply spec_factory_tags_kinds.
  - apply reachable_mount.
  - right. by eexists.
  - apply list_elem_of_In. vm_compute. left. reflexivity.
Defined.

Lemma enabled_list_distinct_catalog_kinds_witness :
  NoDup (protocolsEnabled (loaded [vless_443; ss_text_port]))
  ∧ ∀ k, k ∈ protocolsEnabled (loaded [vless_443; ss_text_port]) → k ∈ PROTOCOLS.
Proof.
  apply (enabled_list_distinct_catalog_kinds
           (Some (stored_node [vless_443; ss_text_port]))
           (λ v, (v, [])) (λ _, Resolved true)).
  - apply (bool_decide_unpack _). vm_compute. exact I.
  - apply reachable_mount.
Defined.

Lemma confirm_with_errors_only_toasts_witness :
  let resolver := λ v : ServerFormValues, (v, [("name", Some "required")]) in
  let st := editing ["shadowsocks"] (blank_values [ss_slot]) in
  let st' := confirm_onClick resolver (λ _, Resolved true) st in
  submitted st' = submitted st
  ∧ form st' = form st
  ∧ open st' = open st
  ∧ protocolsEnabled st' = protocolsEnabled st
  ∧ toasts st' = toasts st ++ ["required"].
Proof.
  intros resolver st.
  apply (proj1 (confirm_with_errors_only_toasts resolver (λ _, Resolved true) st)
           (values (form st)) "name" (Some "required") []).
  reflexivity.
Defined.

Lemma request_total_falls_back_to_length_witness :
  snd (request_result
         (Some (Some {| log_list := Some [1; 2; 3]; log_total := JNum (Fin 0) |})))
  = Fin (inject_Z 3).
Proof.
  apply (proj1 (proj2 (proj2 (request_total_falls_back_to_length
    (Some (Some {| log_list := Some [1; 2; 3]; log_total := JNum (Fin 0) |})))))).
  reflexivity.
Defined.

Lemma titleCase_idempotent_witness :
  titleCase "Vless" = Some "Vless"
  ∧ String.length "Vless" = String.length "vless"
  ∧ (∀ c rest, "vless" = String c rest → ∃ c', "Vless" = String c' rest).
Proof. apply (titleCase_idempotent "vless" "Vless"). reflexivity. Defined.

End InterfaceExamples.
